(** * The [secret] command group of the compose CLI

    A shallow embedding of [cli/cmd/secrets.go]: the four subcommands
    [create], [inspect], [list] and [delete], the two option structs bound to
    their flags, and the table printer [printList] / [printSection].

    The file is a thin front end.  Everything it talks to lives elsewhere:
    the client and the secrets service ([api/client], [api/secrets]), the
    command framework (cobra and its flag sets) and the Go standard library
    ([fmt], [strings], [text/tabwriter]).  Those collaborators appear here as
    an interface ([Externals], [Service], [Backend]) together with the small
    part of their contract that the handlers rely on. *)

From Stdlib Require Import String Ascii List Bool Arith Lia.
From ExtLib Require Import Structures.Monad.
Import ListNotations.
Import MonadNotation.

Local Open Scope string_scope.
Local Open Scope monad_scope.

Set Implicit Arguments.

(** ** Go runtime and standard library *)

(** The two control characters of the table format, ["\t"] and ["\n"]. *)
Definition TAB : string := String "009"%char EmptyString.
Definition NL : string := String "010"%char EmptyString.

(** [strings.Join(elems, sep)]. *)
Definition Join (elems : list string) (sep : string) : string :=
  String.concat sep elems.

(** [strconv.ParseBool]: the accepted spellings of the two booleans, an error
    ([None]) for any other text. *)
Definition ParseBool (str : string) : option bool :=
  if existsb (String.eqb str) ["1"; "t"; "T"; "TRUE"; "true"; "True"] then Some true
  else if existsb (String.eqb str) ["0"; "f"; "F"; "FALSE"; "false"; "False"] then Some false
  else None.

(** ** Data model *)

(** Modelled from the spec: the [Secret] type is declared in the package
    [api/secrets], not in this file.  Its fields follow the data model of the
    spec (identifier, name, username, password, description); [ID], [Name]
    and [Description] are the three that [printList] reads. *)
Module secrets.
Record Secret : Type := mkSecret {
  ID : string;
  Name : string;
  Username : string;
  Password : string;
  Description : string
}.
End secrets.
Abbreviation Secret := secrets.Secret.

(** [type createSecretOptions struct]. *)
Record createSecretOptions : Type := mkCreateSecretOptions {
  Label : string;
  Username : string;
  Password : string;
  Description : string
}.

(** [type deleteSecretOptions struct]. *)
Record deleteSecretOptions : Type := mkDeleteSecretOptions {
  recover : bool
}.

(** What the command framework can object to before a handler runs. *)
Inductive UsageFailure : Type :=
| WrongArgCount (accepts received : nat)
| UnknownFlag (name : string)
| FlagNeedsArgument (name : string)
| InvalidFlagValue (name value : string).

(** ** External collaborators *)

(** The types and pure functions that the file imports.  [error] stands for
    non-nil Go error values, which the handlers never build or inspect;
    [Remote] is the state of the remote service and of whatever else the
    client touches. *)
Class Externals : Type := {
  Context : Type;
  Client : Type;
  Remote : Type;
  error : Type;
  (** errors reported by the command framework itself *)
  usageError : UsageFailure -> error;
  (** [secrets.NewSecret(name, username, password, description)] *)
  NewSecret : string -> string -> string -> string -> Secret;
  (** [func (s Secret) ToJSON() (string, error)] *)
  ToJSON : Secret -> string + error;
  (** the text that a [tabwriter.Writer] created with
      [NewWriter(out, minwidth, tabwidth, padding, padchar, flags)] has
      passed on to [out] once everything written to it is flushed *)
  tabwriter_format : nat -> nat -> nat -> ascii -> nat -> string -> string
}.

(** A Go result pair [(T, error)]: the value when the error is nil. *)
Definition result `{Externals} (A : Type) : Type := (A + error)%type.

Definition errOf `{Externals} {A : Type} (r : result A) : option error :=
  match r with
  | inl _ => None
  | inr err => Some err
  end.

(** The [secrets.Service] interface: each method takes the context and
    answers with a result or an error, and may change the remote state. *)
Record Service `{Externals} : Type := mkService {
  svcCreateSecret : Context -> Secret -> Remote -> result string * Remote;
  svcInspectSecret : Context -> string -> Remote -> result Secret * Remote;
  svcListSecrets : Context -> Remote -> result (list Secret) * Remote;
  svcDeleteSecret : Context -> string -> bool -> Remote -> option error * Remote
}.

(** [client.New] and the client's [SecretsService] method. *)
Record Backend `{Externals} : Type := mkBackend {
  newClient : Context -> Remote -> result Client * Remote;
  SecretsService : Client -> Service
}.

(** ** A run of the process *)

(** One entry per call that leaves the process, with what came back.  The
    client handle itself is not observable, only whether [client.New]
    failed. *)
Inductive Event `{Externals} : Type :=
| EvNew (ctx : Context) (err : option error)
| EvCreateSecret (ctx : Context) (secret : Secret) (reply : result string)
| EvInspectSecret (ctx : Context) (id : string) (reply : result Secret)
| EvListSecrets (ctx : Context) (reply : result (list Secret))
| EvDeleteSecret (ctx : Context) (id : string) (recover : bool) (err : option error).

Record World `{Externals} : Type := mkWorld {
  stdout : string;
  remote : Remote;
  calls : list Event
}.

(** A Go function body either returns or panics. *)
Inductive Outcome (A : Type) : Type :=
| Returned (a : A)
| Panicked.
Arguments Panicked {A}.

Definition Action `{Externals} (A : Type) : Type := World -> Outcome A * World.

#[export] Instance Monad_Action `{Externals} : Monad Action := {
  ret := fun A (a : A) (w : World) => (Returned a, w);
  bind := fun A B (m : Action A) (k : A -> Action B) (w : World) =>
    match m w with
    | (Returned a, w') => k a w'
    | (Panicked, w') => (Panicked, w')
    end
}.

(** [args[i]]: a run-time panic when the index is out of range. *)
Definition index `{Externals} (args : list string) (i : nat) : Action string :=
  fun w =>
    match nth_error args i with
    | Some a => (Returned a, w)
    | None => (Panicked, w)
    end.

(** The world after a call: the call is logged and the remote state is the
    one it left behind. *)
Definition record `{Externals} (ev : Event) (rem : Remote) (w : World) : World :=
  {| stdout := stdout w; remote := rem; calls := calls w ++ [ev] |}.

(** [os.Stdout] as an [io.Writer]: the bytes are appended to the standard
    output; a failed write is not observed by this file. *)
Definition io_Writer `{Externals} : Type := string -> Action unit.

Definition os_Stdout `{Externals} : io_Writer :=
  fun s w =>
    (Returned tt, {| stdout := stdout w ++ s; remote := remote w; calls := calls w |}).

(** [fmt.Println(s)] for a string operand. *)
Definition Println `{Externals} (s : string) : Action unit := os_Stdout (s ++ NL).

(** ** Calls into the client *)

(** [client.New(ctx)]. *)
Definition client_New `{Externals} (B : Backend) (ctx : Context) : Action (result Client) :=
  fun w =>
    let (r, rem) := newClient B ctx (remote w) in
    (Returned r, record (EvNew ctx (errOf r)) rem w).

(** [s.CreateSecret(ctx, secret)]. *)
Definition CreateSecret `{Externals} (s : Service) (ctx : Context) (secret : Secret)
  : Action (result string) :=
  fun w =>
    let (r, rem) := svcCreateSecret s ctx secret (remote w) in
    (Returned r, record (EvCreateSecret ctx secret r) rem w).

(** [s.InspectSecret(ctx, id)]. *)
Definition InspectSecret `{Externals} (s : Service) (ctx : Context) (id : string)
  : Action (result Secret) :=
  fun w =>
    let (r, rem) := svcInspectSecret s ctx id (remote w) in
    (Returned r, record (EvInspectSecret ctx id r) rem w).

(** [s.ListSecrets(ctx)]. *)
Definition ListSecrets `{Externals} (s : Service) (ctx : Context)
  : Action (result (list Secret)) :=
  fun w =>
    let (r, rem) := svcListSecrets s ctx (remote w) in
    (Returned r, record (EvListSecrets ctx r) rem w).

(** [s.DeleteSecret(ctx, id, recover)]. *)
Definition DeleteSecret `{Externals} (s : Service) (ctx : Context) (id : string)
  (recover : bool) : Action (option error) :=
  fun w =>
    let (r, rem) := svcDeleteSecret s ctx id recover (remote w) in
    (Returned r, record (EvDeleteSecret ctx id recover r) rem w).

(** ** Flag sets

    The flag library (pflag, used through cobra) is outside this repository.
    The module below is the part of its behaviour that the two option structs
    depend on: flags are registered with a name, a shorthand and a default,
    and each occurrence on the command line sets the bound field, the last
    one winning. *)

(** A pointer to a field of an options struct, as in [&opts.Username]. *)
Record Ptr (O A : Type) : Type := mkPtr {
  load : O -> A;
  store : A -> O -> O
}.

Module pflag.

(** A registered flag.  [Value_Set] is the [Set] method of the flag's value:
    it parses the text and writes through the pointer the flag was bound to. *)
Record Flag `{Externals} (O : Type) : Type := mkFlag {
  Name : string;
  Shorthand : string;
  Usage : string;
  DefValue : string;
  NoOptDefVal : string;
  Value_Set : string -> O -> result O
}.

(** One flag as it occurs on the command line, after the flag set has split
    the arguments: [--name] or [-n], either bare ([None]) or with the value
    that was attached to it or taken from the next argument. *)
Inductive Arg : Type :=
| Long (name : string) (value : option string)
| Short (shorthand : string) (value : option string).

(** The value written with an occurrence, and the flag as it was written. *)
Definition argValue (a : Arg) : option string :=
  match a with
  | Long _ v => v
  | Short _ v => v
  end.

Definition argText (a : Arg) : string :=
  match a with
  | Long name _ => "--" ++ name
  | Short sh _ => "-" ++ sh
  end.

(** Whether an occurrence refers to a registered flag, by its name or by
    its (non-empty) shorthand. *)
Definition matches `{Externals} {O : Type} (a : Arg) (f : Flag O) : bool :=
  match a with
  | Long name _ => String.eqb (Name f) name
  | Short sh _ => negb (String.eqb sh "") && String.eqb (Shorthand f) sh
  end.

(** Setting one flag from one occurrence: the flag must be registered; a
    bare occurrence stands for [NoOptDefVal] when the flag has one and is an
    error otherwise. *)
Definition parseArg `{Externals} {O : Type} (formal : list (Flag O)) (a : Arg) (o : O)
  : result O :=
  match find (matches a) formal with
  | None => inr (usageError (UnknownFlag (argText a)))
  | Some f =>
      match argValue a with
      | Some v => Value_Set f v o
      | None =>
          if String.eqb (NoOptDefVal f) ""
          then inr (usageError (FlagNeedsArgument (argText a)))
          else Value_Set f (NoOptDefVal f) o
      end
  end.

(** The occurrences are applied from left to right; the first error stops
    the parse. *)
Fixpoint Parse `{Externals} {O : Type} (formal : list (Flag O)) (args : list Arg) (o : O)
  : result O :=
  match args with
  | [] => inl o
  | a :: rest =>
      match parseArg formal a o with
      | inl o' => Parse formal rest o'
      | inr err => inr err
      end
  end.

(** The value of a string flag: any text is accepted. *)
Definition stringValue `{Externals} {O : Type} (p : Ptr O string) : string -> O -> result O :=
  fun s o => inl (store p s o).

(** The value of a boolean flag: the text goes through [strconv.ParseBool]. *)
Definition boolValue `{Externals} {O : Type} (name : string) (p : Ptr O bool)
  : string -> O -> result O :=
  fun s o =>
    match ParseBool s with
    | Some b => inl (store p b o)
    | None => inr (usageError (InvalidFlagValue name s))
    end.

End pflag.

(** ** Commands *)

Module cobra.

Definition PositionalArgs `{Externals} : Type := list string -> option error.

(** Modelled from the spec: cobra is a library outside this repository.
    [ExactArgs(n)] is the argument-arity check that the spec names: it
    objects to any number of positional arguments other than [n]. *)
Definition ExactArgs `{Externals} (n : nat) : PositionalArgs :=
  fun args =>
    if Nat.eqb (List.length args) n then None
    else Some (usageError (WrongArgCount n (List.length args))).

(** The fields of [cobra.Command] that this file sets.  [opts] is the options
    struct that the command's closure captures and that its flags point
    into; [RunE] receives it together with [cmd.Context()] and the
    positional arguments. *)
Record Command `{Externals} (O : Type) : Type := mkCommand {
  Use : string;
  Aliases : list string;
  Short : string;
  Args : option PositionalArgs;
  RunE : O -> Context -> list string -> Action (option error);
  opts : O;
  Flags : list (pflag.Flag O)
}.

(** [cmd.Flags().StringVarP(p, name, shorthand, value, usage)]: stores the
    default through [p] and registers the flag. *)
Definition StringVarP `{Externals} {O : Type} (cmd : Command O) (p : Ptr O string)
  (name shorthand value usage : string) : Command O :=
  {| Use := Use cmd; Aliases := Aliases cmd; Short := Short cmd; Args := Args cmd;
     RunE := RunE cmd;
     opts := store p value (opts cmd);
     Flags := Flags cmd ++
       [pflag.mkFlag name shorthand usage value "" (pflag.stringValue p)] |}.

(** [cmd.Flags().BoolVar(p, name, value, usage)]: as above, without a
    shorthand; a bare occurrence of a boolean flag means ["true"]. *)
Definition BoolVar `{Externals} {O : Type} (cmd : Command O) (p : Ptr O bool)
  (name : string) (value : bool) (usage : string) : Command O :=
  {| Use := Use cmd; Aliases := Aliases cmd; Short := Short cmd; Args := Args cmd;
     RunE := RunE cmd;
     opts := store p value (opts cmd);
     Flags := Flags cmd ++
       [pflag.mkFlag name "" usage (if value then "true" else "false") "true"
          (pflag.boolValue name p)] |}.

(** [cmd.Name()]: the first word of [Use]. *)
Definition Name `{Externals} {O : Type} (cmd : Command O) : string :=
  match String.index 0 " " (Use cmd) with
  | Some i => substring 0 i (Use cmd)
  | None => Use cmd
  end.

Definition HasAlias `{Externals} {O : Type} (cmd : Command O) (s : string) : bool :=
  existsb (String.eqb s) (Aliases cmd).

(** [cmd.ValidateArgs(args)]: a command without [Args] takes any arguments. *)
Definition ValidateArgs `{Externals} {O : Type} (cmd : Command O) (args : list string)
  : option error :=
  match Args cmd with
  | Some check => check args
  | None => None
  end.

(** Modelled from the spec: the order in which cobra runs a command, which
    is not part of this repository.  The flags are parsed into the options
    struct, then the positional arguments are validated, and only then is
    [RunE] called; an error of either of the first two steps is returned
    without [RunE] being called. *)
Definition execute `{Externals} {O : Type} (cmd : Command O) (ctx : Context)
  (flags : list pflag.Arg) (args : list string) : Action (option error) :=
  match pflag.Parse (Flags cmd) flags (opts cmd) with
  | inr err => ret (Some err)
  | inl o =>
      match ValidateArgs cmd args with
      | Some err => ret (Some err)
      | None => RunE cmd o ctx args
      end
  end.

(** A command of any options type, as stored in its parent. *)
Inductive AnyCommand `{Externals} : Type :=
| Sub {O : Type} (cmd : Command O).

Definition called `{Externals} (next : string) (c : AnyCommand) : bool :=
  match c with
  | Sub cmd => String.eqb (Name cmd) next || HasAlias cmd next
  end.

(** [findNext]: the first subcommand whose name or one of whose aliases is
    the word [next]. *)
Definition findNext `{Externals} (commands : list AnyCommand) (next : string)
  : option AnyCommand :=
  find (called next) commands.

Definition executeAny `{Externals} (c : AnyCommand) (ctx : Context)
  (flags : list pflag.Arg) (args : list string) : Action (option error) :=
  match c with
  | Sub cmd => execute cmd ctx flags args
  end.

(** A command that only groups subcommands, like [secret]. *)
Record Group `{Externals} : Type := mkGroup {
  groupUse : string;
  groupShort : string;
  commands : list AnyCommand
}.

End cobra.

(** ** Tab-aligned output *)

Module tabwriter.

(** A [tabwriter.Writer]: its settings, the writer it prints to and the
    chunks of text written to it, oldest first.  The model keeps the whole
    text until the flush.  The library may pass parts of the aligned text on
    earlier (a line of a single cell goes out at its newline); what an
    output that appends, such as [os.Stdout], holds after the flush is the
    same text either way, and that text is what the properties below are
    about. *)
Record Writer `{Externals} : Type := mkWriter {
  output : io_Writer;
  minwidth : nat;
  tabwidth : nat;
  padding : nat;
  padchar : ascii;
  flags : nat;
  buf : list string
}.

Definition NewWriter `{Externals} (output : io_Writer) (minwidth tabwidth padding : nat)
  (padchar : ascii) (flags : nat) : Writer :=
  mkWriter output minwidth tabwidth padding padchar flags [].

Definition Write `{Externals} (w : Writer) (s : string) : Writer :=
  mkWriter (output w) (minwidth w) (tabwidth w) (padding w) (padchar w) (flags w)
    (buf w ++ [s]).

(** [w.Flush()]: by now the aligned form of everything written has gone to
    [output]. *)
Definition Flush `{Externals} (w : Writer) : Action unit :=
  output w
    (tabwriter_format (minwidth w) (tabwidth w) (padding w) (padchar w) (flags w)
       (String.concat "" (buf w))).

End tabwriter.

(** [fmt.Fprintln(w, s)] on a tab writer. *)
Definition Fprintln `{Externals} (w : tabwriter.Writer) (s : string) : tabwriter.Writer :=
  tabwriter.Write w (s ++ NL).

(** [fmt.Fprintf(w, "%s\t%s\t%s\n", a, b, c)] on a tab writer. *)
Definition Fprintf `{Externals} (w : tabwriter.Writer) (a b c : string) : tabwriter.Writer :=
  tabwriter.Write w (a ++ TAB ++ b ++ TAB ++ c ++ NL).

(** ** The file itself *)

(** The field pointers handed to the flag sets. *)
Definition ptr_Username : Ptr createSecretOptions string :=
  {| load := Username;
     store := fun v o => mkCreateSecretOptions (Label o) v (Password o) (Description o) |}.

Definition ptr_Password : Ptr createSecretOptions string :=
  {| load := Password;
     store := fun v o => mkCreateSecretOptions (Label o) (Username o) v (Description o) |}.

Definition ptr_Description : Ptr createSecretOptions string :=
  {| load := Description;
     store := fun v o => mkCreateSecretOptions (Label o) (Username o) (Password o) v |}.

Definition ptr_recover : Ptr deleteSecretOptions bool :=
  {| load := recover;
     store := fun v _ => mkDeleteSecretOptions v |}.

(** [func printSection(out io.Writer, printer func(io.Writer), headers ...string)]. *)
Definition printSection `{Externals} (out : io_Writer)
  (printer : tabwriter.Writer -> tabwriter.Writer) (headers : list string) : Action unit :=
  let w := tabwriter.NewWriter out 20 1 3 " "%char 0 in
  let w := Fprintln w (Join headers TAB) in
  let w := printer w in
  tabwriter.Flush w.

(** [func printList(out io.Writer, secrets []secrets.Secret)]. *)
Definition printList `{Externals} (out : io_Writer) (secrets : list Secret) : Action unit :=
  printSection out
    (fun w =>
       fold_left
         (fun w secret =>
            Fprintf w (secrets.ID secret) (secrets.Name secret) (secrets.Description secret))
         secrets w)
    ["ID"; "NAME"; "DESCRIPTION"].

(** [func createSecret() *cobra.Command]. *)
Definition createSecret `{Externals} (B : Backend) : cobra.Command createSecretOptions :=
  let opts := mkCreateSecretOptions "" "" "" "" in
  let cmd :=
    {| cobra.Use := "create NAME";
       cobra.Aliases := [];
       cobra.Short := "Creates a secret.";
       cobra.Args := Some (cobra.ExactArgs 1);
       cobra.RunE := fun opts ctx args =>
         r <- client_New B ctx ;;
         match r with
         | inr err => ret (Some err)
         | inl c =>
             name <- index args 0 ;;
             let secret := NewSecret name (Username opts) (Password opts) (Description opts) in
             r <- CreateSecret (SecretsService B c) ctx secret ;;
             match r with
             | inr err => ret (Some err)
             | inl id => Println id ;; ret None
             end
         end;
       cobra.opts := opts;
       cobra.Flags := [] |} in
  let cmd := cobra.StringVarP cmd ptr_Username "username" "u" "" "username" in
  let cmd := cobra.StringVarP cmd ptr_Password "password" "p" "" "password" in
  let cmd := cobra.StringVarP cmd ptr_Description "description" "d" "" "Secret description" in
  cmd.

(** [func inspectSecret() *cobra.Command]. *)
Definition inspectSecret `{Externals} (B : Backend) : cobra.Command unit :=
  {| cobra.Use := "inspect ID";
     cobra.Aliases := [];
     cobra.Short := "Displays secret details";
     cobra.Args := Some (cobra.ExactArgs 1);
     cobra.RunE := fun _ ctx args =>
       r <- client_New B ctx ;;
       match r with
       | inr err => ret (Some err)
       | inl c =>
           id <- index args 0 ;;
           r <- InspectSecret (SecretsService B c) ctx id ;;
           match r with
           | inr err => ret (Some err)
           | inl secret =>
               match ToJSON secret with
               | inr err => ret (Some err)
               | inl out => Println out ;; ret None
               end
           end
       end;
     cobra.opts := tt;
     cobra.Flags := [] |}.

(** [func listSecrets() *cobra.Command]. *)
Definition listSecrets `{Externals} (B : Backend) : cobra.Command unit :=
  {| cobra.Use := "list";
     cobra.Aliases := ["ls"];
     cobra.Short := "List secrets stored for the existing account.";
     cobra.Args := None;
     cobra.RunE := fun _ ctx args =>
       r <- client_New B ctx ;;
       match r with
       | inr err => ret (Some err)
       | inl c =>
           r <- ListSecrets (SecretsService B c) ctx ;;
           match r with
           | inr err => ret (Some err)
           | inl list => printList os_Stdout list ;; ret None
           end
       end;
     cobra.opts := tt;
     cobra.Flags := [] |}.

(** [func deleteSecret() *cobra.Command]. *)
Definition deleteSecret `{Externals} (B : Backend) : cobra.Command deleteSecretOptions :=
  let opts := mkDeleteSecretOptions false in
  let cmd :=
    {| cobra.Use := "delete NAME";
       cobra.Aliases := ["rm"; "remove"];
       cobra.Short := "Removes a secret.";
       cobra.Args := Some (cobra.ExactArgs 1);
       cobra.RunE := fun opts ctx args =>
         r <- client_New B ctx ;;
         match r with
         | inr err => ret (Some err)
         | inl c =>
             name <- index args 0 ;;
             DeleteSecret (SecretsService B c) ctx name (recover opts)
         end;
       cobra.opts := opts;
       cobra.Flags := [] |} in
  let cmd := cobra.BoolVar cmd ptr_recover "recover" false "Enable recovery." in
  cmd.

(** [func SecretCommand() *cobra.Command]: the group and its four
    subcommands, in the order of [AddCommand]. *)
Definition SecretCommand `{Externals} (B : Backend) : cobra.Group :=
  {| cobra.groupUse := "secret";
     cobra.groupShort := "Manages secrets";
     cobra.commands :=
       [cobra.Sub (createSecret B); cobra.Sub (inspectSecret B);
        cobra.Sub (listSecrets B); cobra.Sub (deleteSecret B)] |}.

(** ** Reading the command line the way the spec does *)

(** Whether an occurrence names the flag [--name] / [-shorthand]. *)
Definition names (name shorthand : string) (a : pflag.Arg) : bool :=
  match a with
  | pflag.Long n _ => String.eqb name n
  | pflag.Short s _ => negb (String.eqb s "") && String.eqb shorthand s
  end.

(** The value that one occurrence gives to the flag, if it names it. *)
Definition occurrence (name shorthand : string) (a : pflag.Arg) : option string :=
  if names name shorthand a then pflag.argValue a else None.

(** The value given to a string flag: that of its last occurrence, [None]
    when the flag does not occur. *)
Fixpoint given (name shorthand : string) (flags : list pflag.Arg) : option string :=
  match flags with
  | [] => None
  | a :: rest =>
      match given name shorthand rest with
      | Some v => Some v
      | None => occurrence name shorthand a
      end
  end.

(** A given value, or else what was there before. *)
Definition pick {A : Type} (v : option A) (old : A) : A :=
  match v with
  | Some s => s
  | None => old
  end.

(** A given value, or else the default of the three string flags. *)
Definition orEmpty (v : option string) : string := pick v "".

(** Whether [--name] occurs at all. *)
Definition present (name : string) (flags : list pflag.Arg) : bool :=
  existsb (names name "") flags.

(** The boolean that one occurrence of a boolean flag stands for: [true]
    when bare, the parsed text otherwise. *)
Definition boolOf (a : pflag.Arg) : option bool :=
  match pflag.argValue a with
  | None => Some true
  | Some s => ParseBool s
  end.

(** The boolean that one occurrence gives to [--name], if it names it. *)
Definition occurrenceBool (name : string) (a : pflag.Arg) : option bool :=
  if names name "" a then boolOf a else None.

(** The boolean given to [--name]: that of its last occurrence, [None] when
    the flag does not occur. *)
Fixpoint givenBool (name : string) (flags : list pflag.Arg) : option bool :=
  match flags with
  | [] => None
  | a :: rest =>
      match givenBool name rest with
      | Some b => Some b
      | None => occurrenceBool name a
      end
  end.

(** The fields of [createSecretOptions], by name. *)
Inductive createField : Type := FLabel | FUsername | FPassword | FDescription.

Definition field (f : createField) (o : createSecretOptions) : string :=
  match f with
  | FLabel => Label o
  | FUsername => Username o
  | FPassword => Password o
  | FDescription => Description o
  end.

(** A field is populated from a flag when some registered flag, set to a
    text, leaves that text in the field. *)
Definition populatedFromFlag `{Externals} (f : createField)
  (formal : list (pflag.Flag createSecretOptions)) : Prop :=
  exists fl, In fl formal /\
    forall v o, exists o', pflag.Value_Set fl v o = inl o' /\ field f o' = v.

(** One table row, as [printList] formats it. *)
Definition row (s : Secret) : string :=
  secrets.ID s ++ TAB ++ secrets.Name s ++ TAB ++ secrets.Description s ++ NL.

(** The header line of the table. *)
Definition header : string := "ID" ++ TAB ++ "NAME" ++ TAB ++ "DESCRIPTION" ++ NL.

(** What [printList] hands to standard output for a given table text. *)
Definition aligned `{Externals} (text : string) : string :=
  tabwriter_format 20 1 3 " "%char 0 text.

(** The calls that a run from [w] to [w'] added to the log, in order. *)
Definition issued `{Externals} (w w' : World) (evs : list Event) : Prop :=
  calls w' = (calls w ++ evs)%list.

(** The error, if any, that a call came back with. *)
Definition eventError `{Externals} (ev : Event) : option error :=
  match ev with
  | EvNew _ err => err
  | EvCreateSecret _ _ reply => errOf reply
  | EvInspectSecret _ _ reply => errOf reply
  | EvListSecrets _ reply => errOf reply
  | EvDeleteSecret _ _ _ err => err
  end.

(** An error comes from the client when it is the reply of the last call
    that the run made, be it [client.New] or a method of the service. *)
Definition fromClient `{Externals} (w w' : World) (err : error) : Prop :=
  exists evs ev, issued w w' (evs ++ [ev])%list /\ eventError ev = Some err.

(** Modelled from the spec: [ToJSON] is a method of the [Secret] type of the
    package [api/secrets], not of this file.  The spec gives [inspect] two
    ways to fail, a missing id and an error of the remote call; serializing
    the inspected secret is not one of them, so it yields its text for every
    secret. *)
Definition serializes `{Externals} : Prop :=
  forall s : Secret, exists out, ToJSON s = inl out.

(** ** Reading the call log and the table text *)

(** The context a logged call was made with. *)
Definition eventContext `{Externals} (ev : Event) : Context :=
  match ev with
  | EvNew ctx _ => ctx
  | EvCreateSecret ctx _ _ => ctx
  | EvInspectSecret ctx _ _ => ctx
  | EvListSecrets ctx _ => ctx
  | EvDeleteSecret ctx _ _ _ => ctx
  end.

(** The function a logged call went to. *)
Inductive Method : Type :=
| MNew | MCreateSecret | MInspectSecret | MListSecrets | MDeleteSecret.

Definition eventMethod `{Externals} (ev : Event) : Method :=
  match ev with
  | EvNew _ _ => MNew
  | EvCreateSecret _ _ _ => MCreateSecret
  | EvInspectSecret _ _ _ => MInspectSecret
  | EvListSecrets _ _ => MListSecrets
  | EvDeleteSecret _ _ _ _ => MDeleteSecret
  end.

(** A run made the calls [ms], in that order, all of them with [ctx]. *)
Definition madeCalls `{Externals} (w w' : World) (ctx : Context) (ms : list Method) : Prop :=
  exists evs,
    issued w w' evs /\ map eventMethod evs = ms /\
    Forall (fun ev => eventContext ev = ctx) evs.

(** How often a character occurs in a text. *)
Fixpoint count (c : ascii) (s : string) : nat :=
  match s with
  | EmptyString => 0
  | String a rest => (if Ascii.eqb a c then 1 else 0) + count c rest
  end.

(** A secret whose three printed fields hold neither a tab nor a newline. *)
Definition plain (s : Secret) : Prop :=
  forall c, c = "009"%char \/ c = "010"%char ->
    count c (secrets.ID s) = 0 /\ count c (secrets.Name s) = 0 /\
    count c (secrets.Description s) = 0.

(** The table text of [printList]: the header line and the rows. *)
Definition table (l : list Secret) : string :=
  String.concat "" (header :: map row l).

(** The long form of an occurrence of one of the flags of [create]. *)
Definition longForm (a : pflag.Arg) : pflag.Arg :=
  match a with
  | pflag.Long _ _ => a
  | pflag.Short s v =>
      if String.eqb s "u" then pflag.Long "username" v
      else if String.eqb s "p" then pflag.Long "password" v
      else if String.eqb s "d" then pflag.Long "description" v
      else a
  end.

(** An occurrence that [create] accepts: one of its three flags, by name or
    by shorthand, with a value. *)
Definition createAccepts (a : pflag.Arg) : bool :=
  (names "username" "u" a || names "password" "p" a || names "description" "d" a)
  && match pflag.argValue a with
     | Some _ => true
     | None => false
     end.

(** An occurrence that [delete] accepts: [--recover], bare or with a text
    that [ParseBool] understands. *)
Definition deleteAccepts (a : pflag.Arg) : bool :=
  names "recover" "" a
  && match boolOf a with
     | Some _ => true
     | None => false
     end.

(** The words that select a subcommand of [secret]. *)
Definition verbs : list string :=
  ["create"; "inspect"; "list"; "ls"; "delete"; "rm"; "remove"].

(** ** A concrete backend

    A small in-memory service, used to run the commands on explicit inputs:
    contexts and clients are numbers, errors are their texts, the remote
    state is the list of stored secrets. *)

Module Demo.

Definition render (f : UsageFailure) : string :=
  match f with
  | WrongArgCount _ _ => "wrong number of arguments"
  | UnknownFlag name => "unknown flag: " ++ name
  | FlagNeedsArgument name => "flag needs an argument: " ++ name
  | InvalidFlagValue name value => "invalid argument for flag --" ++ name
  end.

Definition json (s : Secret) : string :=
  "{ID: " ++ secrets.ID s ++ ", Name: " ++ secrets.Name s ++ "}".

Definition externals : Externals :=
  {| Context := nat;
     Client := nat;
     Remote := list Secret;
     error := string;
     usageError := render;
     NewSecret := fun name username password description =>
       secrets.mkSecret "" name username password description;
     ToJSON := fun s => inl (json s);
     tabwriter_format := fun _ _ _ _ _ text => text |}.

Definition stored (id : string) (s : Secret) : Secret :=
  secrets.mkSecret id (secrets.Name s) (secrets.Username s) (secrets.Password s)
    (secrets.Description s).

Definition hasName (n : string) (s : Secret) : bool := String.eqb (secrets.Name s) n.

Definition hasID (id : string) (s : Secret) : bool := String.eqb (secrets.ID s) id.

(** The service: [down] makes every method fail with that error. *)
Definition service (down : option string) : @Service externals :=
  @mkService externals
    (fun _ s (r : list Secret) =>
       match down with
       | Some err => (inr err, r)
       | None => (inl ("id-" ++ secrets.Name s), (r ++ [stored ("id-" ++ secrets.Name s) s])%list)
       end)
    (fun _ id (r : list Secret) =>
       match down with
       | Some err => (inr err, r)
       | None =>
           match find (hasID id) r with
           | Some s => (inl s, r)
           | None => (inr "secret not found", r)
           end
       end)
    (fun _ (r : list Secret) =>
       match down with
       | Some err => (inr err, r)
       | None => (inl r, r)
       end)
    (fun _ name _ (r : list Secret) =>
       match down with
       | Some err => (Some err, r)
       | None => (None, filter (fun s => negb (hasName name s)) r)
       end).

(** The backend: [noClient] makes [client.New] fail with that error. *)
Definition backend (noClient down : option string) : @Backend externals :=
  @mkBackend externals
    (fun _ (r : list Secret) =>
       match noClient with
       | Some err => (inr err, r)
       | None => (inl 0, r)
       end)
    (fun _ => service down).

Definition world (r : list Secret) : @World externals :=
  @mkWorld externals "" r [].

Definition alpha : Secret := secrets.mkSecret "id-alpha" "alpha" "ann" "pw" "first".
Definition beta : Secret := secrets.mkSecret "id-beta" "beta" "bob" "pw" "second".

(** A service that works and one that is down, and a world that holds
    [alpha] and [beta]. *)
Definition healthy : @Backend externals := backend None None.
Definition unreachable : @Backend externals := backend None (Some "service unavailable").

Definition start : @World externals := world [alpha; beta].

End Demo.

(** * Properties *)

(** ** Flag parsing of the two commands that have flags *)

Section Flags.
Context `{Externals}.
Variable B : Backend.

(** One occurrence accepted by [create] writes its value to the field of the
    flag it names and leaves the other fields alone. *)
Lemma parseArg_create (a : pflag.Arg) (o o' : createSecretOptions) :
  pflag.parseArg (cobra.Flags (createSecret B)) a o = inl o' ->
  Label o' = Label o /\
  Username o' = pick (occurrence "username" "u" a) (Username o) /\
  Password o' = pick (occurrence "password" "p" a) (Password o) /\
  Description o' = pick (occurrence "description" "d" a) (Description o).
Proof.
  unfold pflag.parseArg, occurrence.
  destruct a as [n v | s v]; cbn -[String.eqb].
  - destruct (String.eqb_spec "username" n) as [<- | _].
    { destruct v; cbn; intros E; inversion E; subst; cbn; auto. }
    destruct (String.eqb_spec "password" n) as [<- | _].
    { destruct v; cbn; intros E; inversion E; subst; cbn; auto. }
    destruct (String.eqb_spec "description" n) as [<- | _].
    { destruct v; cbn; intros E; inversion E; subst; cbn; auto. }
    intros E; discriminate E.
  - destruct (String.eqb_spec s "") as [-> | _]; cbn -[String.eqb];
      [intros E; discriminate E |].
    destruct (String.eqb_spec "u" s) as [<- | _].
    { destruct v; cbn; intros E; inversion E; subst; cbn; auto. }
    destruct (String.eqb_spec "p" s) as [<- | _].
    { destruct v; cbn; intros E; inversion E; subst; cbn; auto. }
    destruct (String.eqb_spec "d" s) as [<- | _].
    { destruct v; cbn; intros E; inversion E; subst; cbn; auto. }
    intros E; discriminate E.
Qed.

Lemma given_cons (name shorthand : string) (a : pflag.Arg) (rest : list pflag.Arg) (old : string) :
  pick (given name shorthand (a :: rest)) old =
  pick (given name shorthand rest) (pick (occurrence name shorthand a) old).
Proof.
  cbn. destruct (given name shorthand rest); reflexivity.
Qed.

(** A successful parse leaves in each field the value of the last occurrence
    of its flag, or what the field held before. *)
Lemma Parse_create (flags : list pflag.Arg) :
  forall o o' : createSecretOptions,
  pflag.Parse (cobra.Flags (createSecret B)) flags o = inl o' ->
  Label o' = Label o /\
  Username o' = pick (given "username" "u" flags) (Username o) /\
  Password o' = pick (given "password" "p" flags) (Password o) /\
  Description o' = pick (given "description" "d" flags) (Description o).
Proof.
  induction flags as [| a rest IH]; intros o o' E.
  - cbn in E. inversion E. subst. cbn. auto.
  - change (pflag.Parse (cobra.Flags (createSecret B)) (a :: rest) o)
      with (match pflag.parseArg (cobra.Flags (createSecret B)) a o with
            | inl o1 => pflag.Parse (cobra.Flags (createSecret B)) rest o1
            | inr err => inr err
            end) in E.
    destruct (pflag.parseArg (cobra.Flags (createSecret B)) a o) as [o1 | err] eqn:E1;
      [| discriminate].
    destruct (parseArg_create _ _ E1) as (L1 & U1 & P1 & D1).
    destruct (IH _ _ E) as (L & U & P & D).
    rewrite !given_cons, <- L1, <- U1, <- P1, <- D1. auto.
Qed.

Lemma givenBool_cons (name : string) (a : pflag.Arg) (rest : list pflag.Arg) (old : bool) :
  pick (givenBool name (a :: rest)) old =
  pick (givenBool name rest) (pick (occurrenceBool name a) old).
Proof.
  cbn. destruct (givenBool name rest); reflexivity.
Qed.

(** The only occurrences that [delete] accepts are those of [--recover]:
    bare, or with a text that [ParseBool] understands. *)
Lemma parseArg_delete (a : pflag.Arg) (o o' : deleteSecretOptions) :
  pflag.parseArg (cobra.Flags (deleteSecret B)) a o = inl o' ->
  exists b, occurrenceBool "recover" a = Some b /\ recover o' = b.
Proof.
  unfold pflag.parseArg, occurrenceBool, boolOf.
  destruct a as [n v | s v]; cbn -[String.eqb ParseBool].
  - destruct (String.eqb_spec "recover" n) as [<- | _]; [| intros E; discriminate E].
    destruct v as [text |]; cbn -[ParseBool]; unfold pflag.boolValue.
    + destruct (ParseBool text) as [b |]; intros E; inversion E; subst.
      exists b. auto.
    + cbn. intros E; inversion E; subst. exists true. auto.
  - destruct (String.eqb_spec s "") as [-> | Hs]; cbn -[String.eqb];
      [intros E; discriminate E |].
    destruct (String.eqb_spec "" s) as [<- | _]; [contradiction |].
    intros E; discriminate E.
Qed.

Lemma Parse_delete (flags : list pflag.Arg) :
  forall o o' : deleteSecretOptions,
  pflag.Parse (cobra.Flags (deleteSecret B)) flags o = inl o' ->
  recover o' = pick (givenBool "recover" flags) (recover o).
Proof.
  induction flags as [| a rest IH]; intros o o' E.
  - cbn in E. inversion E. reflexivity.
  - change (pflag.Parse (cobra.Flags (deleteSecret B)) (a :: rest) o)
      with (match pflag.parseArg (cobra.Flags (deleteSecret B)) a o with
            | inl o1 => pflag.Parse (cobra.Flags (deleteSecret B)) rest o1
            | inr err => inr err
            end) in E.
    destruct (pflag.parseArg (cobra.Flags (deleteSecret B)) a o) as [o1 | err] eqn:E1;
      [| discriminate].
    destruct (parseArg_delete _ _ E1) as (b & Hb & R1).
    rewrite givenBool_cons, Hb, (IH _ _ E), R1. reflexivity.
Qed.

(** A flag that does not occur is given no value. *)
Lemma given_absent (name shorthand : string) (flags : list pflag.Arg) :
  existsb (names name shorthand) flags = false -> given name shorthand flags = None.
Proof.
  induction flags as [| a rest IH]; cbn; [reflexivity |].
  intros E. apply orb_false_iff in E. destruct E as [Ea Er].
  rewrite (IH Er). unfold occurrence. rewrite Ea. reflexivity.
Qed.

Lemma givenBool_absent (name : string) (flags : list pflag.Arg) :
  present name flags = false -> givenBool name flags = None.
Proof.
  unfold present.
  induction flags as [| a rest IH]; cbn; [reflexivity |].
  intros E. apply orb_false_iff in E. destruct E as [Ea Er].
  rewrite (IH Er). unfold occurrenceBool. rewrite Ea. reflexivity.
Qed.

(** When the last occurrence on the command line is the bare flag, the flag
    is given [true]. *)
Lemma givenBool_last_bare (name : string) (flags : list pflag.Arg) :
  givenBool name (flags ++ [pflag.Long name None]) = Some true.
Proof.
  induction flags as [| a rest IH]; cbn -[String.eqb].
  - unfold occurrenceBool, boolOf. cbn -[String.eqb]. rewrite String.eqb_refl. reflexivity.
  - rewrite IH. reflexivity.
Qed.


End Flags.

Section Handlers.
Context `{Externals}.
Variable B : Backend.

(** Logs after one and after two calls. *)
Lemma issued_one (w : World) (ev : Event) (rem : Remote) :
  issued w (record ev rem w) [ev].
Proof. reflexivity. Qed.

Lemma issued_two (w : World) (ev1 ev2 : Event) (rem1 rem2 : Remote) :
  issued w (record ev2 rem2 (record ev1 rem1 w)) [ev1; ev2].
Proof. unfold issued, record. cbn. rewrite <- app_assoc. reflexivity. Qed.

Lemma fromClient_one (w w' : World) (ev : Event) (err : error) :
  issued w w' [ev] -> eventError ev = Some err -> fromClient w w' err.
Proof. intros I E. exists [], ev. auto. Qed.

Lemma fromClient_two (w w' : World) (ev1 ev2 : Event) (err : error) :
  issued w w' [ev1; ev2] -> eventError ev2 = Some err -> fromClient w w' err.
Proof. intros I E. exists [ev1], ev2. auto. Qed.

(** C1, as amended.  [create NAME] with any accepted flags, when the client
    is built: the handler issues one [CreateSecret] request and no other
    service call; the secret of that request is [NewSecret] applied to the
    positional name and to the values given to [--username], [--password]
    and [--description], each the empty string when its flag is absent; the
    handler returns the error of that request, nil included, and when the
    service answers with an identifier, that identifier and a newline are
    what it prints. *)
Theorem create_issues_one_request
  (ctx : Context) (flags : list pflag.Arg) (name : string) (w : World)
  (o : createSecretOptions) (c : Client) (r1 : Remote) :
  let secret :=
    NewSecret name
      (orEmpty (given "username" "u" flags))
      (orEmpty (given "password" "p" flags))
      (orEmpty (given "description" "d" flags)) in
  let reply := svcCreateSecret (SecretsService B c) ctx secret r1 in
  pflag.Parse (cobra.Flags (createSecret B)) flags (cobra.opts (createSecret B)) = inl o ->
  newClient B ctx (remote w) = (inl c, r1) ->
  exists w',
    cobra.execute (createSecret B) ctx flags [name] w = (Returned (errOf (fst reply)), w')
    /\ issued w w' [EvNew ctx None; EvCreateSecret ctx secret (fst reply)]
    /\ remote w' = snd reply
    /\ (forall id, fst reply = inl id -> stdout w' = stdout w ++ id ++ NL)
    /\ (forall err, fst reply = inr err -> stdout w' = stdout w).
Proof.
  intros secret reply HP HN.
  destruct (Parse_create B _ _ HP) as (_ & U & P & D).
  cbn in U, P, D.
  fold (orEmpty (given "username" "u" flags)) in U.
  fold (orEmpty (given "password" "p" flags)) in P.
  fold (orEmpty (given "description" "d" flags)) in D.
  unfold cobra.execute. rewrite HP.
  cbn -[given]. unfold client_New. rewrite HN.
  cbn -[given]. unfold CreateSecret. cbn -[given].
  rewrite U, P, D. fold secret. fold reply.
  destruct reply as [[id | err] r2]; cbn; eexists;
    (split; [reflexivity |]);
    (split; [unfold issued, record; cbn; rewrite <- app_assoc; reflexivity |]);
    (split; [reflexivity |]);
    split; intros x E; inversion E; reflexivity.
Qed.

(** The loop of [printList] appends one row per secret, in order, to
    whatever the writer already holds, and touches nothing else. *)
Lemma printList_loop (secrets : list Secret) :
  forall w : tabwriter.Writer,
  fold_left
    (fun w secret =>
       Fprintf w (secrets.ID secret) (secrets.Name secret) (secrets.Description secret))
    secrets w =
  tabwriter.mkWriter (tabwriter.output w) (tabwriter.minwidth w) (tabwriter.tabwidth w)
    (tabwriter.padding w) (tabwriter.padchar w) (tabwriter.flags w)
    (tabwriter.buf w ++ map row secrets).
Proof.
  induction secrets as [| s rest IH]; intros w.
  - cbn. rewrite app_nil_r. destruct w; reflexivity.
  - cbn [fold_left map]. rewrite IH. cbn.
    rewrite <- app_assoc. reflexivity.
Qed.

(** [printList] sends to [out] the aligned form of the header line followed
    by the rows. *)
Lemma printList_text (out : io_Writer) (secrets : list Secret) :
  printList out secrets = out (aligned (String.concat "" (header :: map row secrets))).
Proof.
  unfold printList, printSection. rewrite printList_loop. reflexivity.
Qed.

(** A successful run of [list]. *)
Lemma listSecrets_run
  (ctx : Context) (args : list string) (w : World)
  (c : Client) (r1 r2 : Remote) (l : list Secret) :
  newClient B ctx (remote w) = (inl c, r1) ->
  svcListSecrets (SecretsService B c) ctx r1 = (inl l, r2) ->
  cobra.execute (listSecrets B) ctx [] args w =
    (Returned None,
     {| stdout := stdout w ++ aligned (String.concat "" (header :: map row l));
        remote := r2;
        calls := calls w ++ [EvNew ctx None; EvListSecrets ctx (inl l)] |}).
Proof.
  intros HN HL.
  unfold cobra.execute. cbn -[printList].
  unfold client_New. rewrite HN. cbn -[printList].
  unfold ListSecrets. cbn -[printList]. rewrite HL. cbn -[printList].
  rewrite printList_text. unfold record. cbn. rewrite <- app_assoc. reflexivity.
Qed.

(** C2.  When [ListSecrets] answers with a list, [list] prints the table
    made of the header line and then exactly one row per secret, in the
    order of that list; each row is the secret's ID, Name and Description,
    in that order. *)
Theorem list_renders_rows_in_order
  (ctx : Context) (args : list string) (w : World)
  (c : Client) (r1 r2 : Remote) (l : list Secret) :
  newClient B ctx (remote w) = (inl c, r1) ->
  svcListSecrets (SecretsService B c) ctx r1 = (inl l, r2) ->
  cobra.execute (listSecrets B) ctx [] args w =
    (Returned None,
     {| stdout := stdout w ++ aligned (String.concat "" (header :: map row l));
        remote := r2;
        calls := calls w ++ [EvNew ctx None; EvListSecrets ctx (inl l)] |})
  /\ List.length (map row l) = List.length l
  /\ (forall i s, nth_error l i = Some s ->
        nth_error (map row l) i =
        Some (secrets.ID s ++ TAB ++ secrets.Name s ++ TAB ++ secrets.Description s ++ NL)).
Proof.
  intros HN HL. split; [| split].
  - exact (listSecrets_run ctx args w HN HL).
  - apply length_map.
  - intros i s E. rewrite nth_error_map, E. reflexivity.
Qed.

(** C3, as amended.  The boolean that [delete] passes as [recover] is the
    one given to the [--recover] flag by its last occurrence on the command
    line: true for the bare flag, the parsed text for [--recover=TEXT].  It
    is false when the flag is absent and true when the last occurrence is
    the bare flag. *)
Theorem delete_passes_given_recover
  (ctx : Context) (flags : list pflag.Arg) (name : string) (w : World)
  (o : deleteSecretOptions) (c : Client) (r1 : Remote) :
  pflag.Parse (cobra.Flags (deleteSecret B)) flags (cobra.opts (deleteSecret B)) = inl o ->
  newClient B ctx (remote w) = (inl c, r1) ->
  let passed := pick (givenBool "recover" flags) false in
  cobra.execute (deleteSecret B) ctx flags [name] w =
    (Returned (fst (svcDeleteSecret (SecretsService B c) ctx name passed r1)),
     {| stdout := stdout w;
        remote := snd (svcDeleteSecret (SecretsService B c) ctx name passed r1);
        calls := calls w ++
          [EvNew ctx None;
           EvDeleteSecret ctx name passed
             (fst (svcDeleteSecret (SecretsService B c) ctx name passed r1))] |})
  /\ (present "recover" flags = false -> passed = false)
  /\ (forall before, flags = (before ++ [pflag.Long "recover" None])%list -> passed = true).
Proof.
  intros HP HN passed.
  pose proof (Parse_delete B _ _ HP) as R. cbn in R. fold passed in R.
  split; [| split].
  - unfold cobra.execute. rewrite HP.
    cbn. unfold client_New. rewrite HN. cbn.
    unfold DeleteSecret. cbn. rewrite R.
    destruct (svcDeleteSecret (SecretsService B c) ctx name passed r1) as [err r2].
    unfold record. cbn. rewrite <- app_assoc. reflexivity.
  - intros E. unfold passed. rewrite (givenBool_absent _ _ E). reflexivity.
  - intros before ->. unfold passed. rewrite givenBool_last_bare. reflexivity.
Qed.

(** C9.  Whatever the list, the table text that [printList] sends out starts
    with the one header line, the titles ID, NAME and DESCRIPTION joined by
    tabs, followed by one row per secret; for the empty list it is the header
    line alone, and that is all a successful [list] over zero secrets
    prints. *)
Theorem list_header_comes_first
  (out : io_Writer) (secrets : list Secret) (ctx : Context) (args : list string)
  (w : World) (c : Client) (r1 r2 : Remote) :
  header = Join ["ID"; "NAME"; "DESCRIPTION"] TAB ++ NL
  /\ (exists rows, List.length rows = List.length secrets /\
        printList out secrets = out (aligned (header ++ String.concat "" rows)))
  /\ printList out [] = out (aligned header)
  /\ (newClient B ctx (remote w) = (inl c, r1) ->
      svcListSecrets (SecretsService B c) ctx r1 = (inl [], r2) ->
      exists w', cobra.execute (listSecrets B) ctx [] args w = (Returned None, w') /\
                 stdout w' = stdout w ++ aligned header).
Proof.
  split; [reflexivity | split; [| split]].
  - exists (map row secrets). split; [apply length_map |].
    rewrite printList_text. destruct (map row secrets); reflexivity.
  - rewrite printList_text. reflexivity.
  - intros HN HL.
    eexists. split; [apply (listSecrets_run ctx args w HN HL) | reflexivity].
Qed.

(** C4.  When the client is built and the service call of a handler comes
    back with an error, the handler returns that very error and leaves the
    standard output as it found it.  This holds for [CreateSecret],
    [InspectSecret], [ListSecrets] and [DeleteSecret] alike. *)
Theorem service_error_prints_nothing
  (ctx : Context) (w : World) (c : Client) (r1 r2 : Remote) (err : error) :
  newClient B ctx (remote w) = (inl c, r1) ->
  (forall o name rest,
     svcCreateSecret (SecretsService B c) ctx
       (NewSecret name (Username o) (Password o) (Description o)) r1 = (inr err, r2) ->
     exists w', cobra.RunE (createSecret B) o ctx (name :: rest) w = (Returned (Some err), w')
                /\ stdout w' = stdout w)
  /\ (forall o id rest,
        svcInspectSecret (SecretsService B c) ctx id r1 = (inr err, r2) ->
        exists w', cobra.RunE (inspectSecret B) o ctx (id :: rest) w = (Returned (Some err), w')
                   /\ stdout w' = stdout w)
  /\ (forall o args,
        svcListSecrets (SecretsService B c) ctx r1 = (inr err, r2) ->
        exists w', cobra.RunE (listSecrets B) o ctx args w = (Returned (Some err), w')
                   /\ stdout w' = stdout w)
  /\ (forall o name rest,
        svcDeleteSecret (SecretsService B c) ctx name (recover o) r1 = (Some err, r2) ->
        exists w', cobra.RunE (deleteSecret B) o ctx (name :: rest) w = (Returned (Some err), w')
                   /\ stdout w' = stdout w).
Proof.
  intros HN. repeat split.
  - intros o name rest HS. cbn. unfold client_New. rewrite HN. cbn.
    unfold CreateSecret. cbn. rewrite HS. cbn. eexists. split; reflexivity.
  - intros o id rest HS. cbn. unfold client_New. rewrite HN. cbn.
    unfold InspectSecret. cbn. rewrite HS. cbn. eexists. split; reflexivity.
  - intros o args HS. cbn -[printList]. unfold client_New. rewrite HN. cbn -[printList].
    unfold ListSecrets. cbn -[printList]. rewrite HS. cbn. eexists. split; reflexivity.
  - intros o name rest HS. cbn. unfold client_New. rewrite HN. cbn.
    unfold DeleteSecret. cbn. rewrite HS. cbn. eexists. split; reflexivity.
Qed.

(** With a number of positional arguments other than one, the arity check
    of a command declared with [ExactArgs(1)] objects. *)
Lemma ExactArgs_1_rejects (args : list string) :
  List.length args <> 1 ->
  cobra.ExactArgs 1 args = Some (usageError (WrongArgCount 1 (List.length args))).
Proof.
  intros E. unfold cobra.ExactArgs.
  destruct (Nat.eqb_spec (List.length args) 1); [contradiction | reflexivity].
Qed.

(** A command whose [Args] is [ExactArgs(1)] returns an error and leaves the
    world untouched when it is run with another number of arguments. *)
Lemma execute_rejects_arity {O : Type} (cmd : cobra.Command O)
  (ctx : Context) (flags : list pflag.Arg) (args : list string) (w : World) :
  cobra.Args cmd = Some (cobra.ExactArgs 1) ->
  List.length args <> 1 ->
  exists err, cobra.execute cmd ctx flags args w = (Returned (Some err), w).
Proof.
  intros HA E. unfold cobra.execute, cobra.ValidateArgs. rewrite HA.
  destruct (pflag.Parse (cobra.Flags cmd) flags (cobra.opts cmd)) as [o | err].
  - rewrite (ExactArgs_1_rejects _ E). eexists. reflexivity.
  - eexists. reflexivity.
Qed.

(** C5.  [create], [inspect] and [delete], run with a number of positional
    arguments other than one, return an error without building a client and
    without any call to the service: the world, call log included, is the
    one the command started in. *)
Theorem arity_checked_before_any_call
  (ctx : Context) (flags : list pflag.Arg) (args : list string) (w : World) :
  List.length args <> 1 ->
  (exists err, cobra.execute (createSecret B) ctx flags args w = (Returned (Some err), w))
  /\ (exists err, cobra.execute (inspectSecret B) ctx flags args w = (Returned (Some err), w))
  /\ (exists err, cobra.execute (deleteSecret B) ctx flags args w = (Returned (Some err), w)).
Proof.
  intros E. repeat split; apply execute_rejects_arity; auto.
Qed.

(** An error returned by a handler is, unchanged, the error of the last call
    the handler made, which is either [client.New] or the one service call
    that follows it; the handler makes no further call after an error.  The
    handler of [inspect] also hands on what [ToJSON] returns as an error. *)
Lemma handler_errors_are_passed_on
  (ctx : Context) (args : list string) (w w' : World) (err : error) :
  (forall o,
     cobra.RunE (createSecret B) o ctx args w = (Returned (Some err), w') ->
     fromClient w w' err /\
     (issued w w' [EvNew ctx (Some err)] \/
      exists secret, issued w w' [EvNew ctx None; EvCreateSecret ctx secret (inr err)]))
  /\ (forall o,
        cobra.RunE (inspectSecret B) o ctx args w = (Returned (Some err), w') ->
        (fromClient w w' err /\
         (issued w w' [EvNew ctx (Some err)] \/
          exists id, issued w w' [EvNew ctx None; EvInspectSecret ctx id (inr err)]))
        \/ exists id secret,
             issued w w' [EvNew ctx None; EvInspectSecret ctx id (inl secret)] /\
             ToJSON secret = inr err)
  /\ (forall o,
        cobra.RunE (listSecrets B) o ctx args w = (Returned (Some err), w') ->
        fromClient w w' err /\
        (issued w w' [EvNew ctx (Some err)] \/
         issued w w' [EvNew ctx None; EvListSecrets ctx (inr err)]))
  /\ (forall o,
        cobra.RunE (deleteSecret B) o ctx args w = (Returned (Some err), w') ->
        fromClient w w' err /\
        (issued w w' [EvNew ctx (Some err)] \/
         exists name, issued w w' [EvNew ctx None; EvDeleteSecret ctx name (recover o) (Some err)])).
Proof.
  repeat apply conj; intros o; cbn -[printList]; unfold client_New;
    destruct (newClient B ctx (remote w)) as [[c | e] r1]; cbn -[printList].
  - destruct args as [| name rest]; cbn; [intros E; discriminate E |].
    unfold CreateSecret. cbn.
    destruct (svcCreateSecret _ _ _ _) as [[id | e] r2]; cbn; intros E; inversion E; subst.
    split; [eapply fromClient_two; [apply issued_two | reflexivity] |].
    right. eexists. apply issued_two.
  - intros E; inversion E; subst.
    split; [eapply fromClient_one; [apply issued_one | reflexivity] |].
    left. apply issued_one.
  - destruct args as [| id rest]; cbn; [intros E; discriminate E |].
    unfold InspectSecret. cbn.
    destruct (svcInspectSecret _ _ _ _) as [[secret | e] r2]; cbn.
    + destruct (ToJSON secret) as [out | e] eqn:J; cbn; intros E; inversion E; subst.
      right. exists id, secret. split; [apply issued_two | exact J].
    + intros E; inversion E; subst. left.
      split; [eapply fromClient_two; [apply issued_two | reflexivity] |].
      right. eexists. apply issued_two.
  - intros E; inversion E; subst. left.
    split; [eapply fromClient_one; [apply issued_one | reflexivity] |].
    left. apply issued_one.
  - unfold ListSecrets. cbn -[printList].
    destruct (svcListSecrets _ _ _) as [[l | e] r2]; cbn -[printList].
    + rewrite printList_text. cbn. intros E; inversion E.
    + intros E; inversion E; subst.
      split; [eapply fromClient_two; [apply issued_two | reflexivity] |].
      right. apply issued_two.
  - intros E; inversion E; subst.
    split; [eapply fromClient_one; [apply issued_one | reflexivity] |].
    left. apply issued_one.
  - destruct args as [| name rest]; cbn; [intros E; discriminate E |].
    unfold DeleteSecret. cbn.
    destruct (svcDeleteSecret _ _ _ _ _) as [[e |] r2]; cbn; intros E; inversion E; subst.
    split; [eapply fromClient_two; [apply issued_two | reflexivity] |].
    right. eexists. apply issued_two.
  - intros E; inversion E; subst.
    split; [eapply fromClient_one; [apply issued_one | reflexivity] |].
    left. apply issued_one.
Qed.

(** C6.  An error returned by a handler comes from the client: it is,
    unchanged, the error of [client.New] or of the one service call that the
    handler made after it, and that failed call is the last call of the run,
    so nothing is retried, recovered or wrapped.  The serializer of [inspect]
    yields its text for every secret and so adds no error of its own. *)
Theorem handler_errors_come_from_the_client
  (ctx : Context) (args : list string) (w w' : World) (err : error) :
  serializes ->
  (forall o,
     cobra.RunE (createSecret B) o ctx args w = (Returned (Some err), w') ->
     fromClient w w' err /\
     (issued w w' [EvNew ctx (Some err)] \/
      exists secret, issued w w' [EvNew ctx None; EvCreateSecret ctx secret (inr err)]))
  /\ (forall o,
        cobra.RunE (inspectSecret B) o ctx args w = (Returned (Some err), w') ->
        fromClient w w' err /\
        (issued w w' [EvNew ctx (Some err)] \/
         exists id, issued w w' [EvNew ctx None; EvInspectSecret ctx id (inr err)]))
  /\ (forall o,
        cobra.RunE (listSecrets B) o ctx args w = (Returned (Some err), w') ->
        fromClient w w' err /\
        (issued w w' [EvNew ctx (Some err)] \/
         issued w w' [EvNew ctx None; EvListSecrets ctx (inr err)]))
  /\ (forall o,
        cobra.RunE (deleteSecret B) o ctx args w = (Returned (Some err), w') ->
        fromClient w w' err /\
        (issued w w' [EvNew ctx (Some err)] \/
         exists name, issued w w' [EvNew ctx None; EvDeleteSecret ctx name (recover o) (Some err)])).
Proof.
  intros Total.
  destruct (handler_errors_are_passed_on ctx args w w' err) as (C & I & L & D).
  repeat apply conj; auto.
  intros o E. destruct (I o E) as [Client | (id & secret & _ & J)]; [exact Client |].
  destruct (Total secret) as [out T]. rewrite T in J. discriminate J.
Qed.

(** C8.  The words [delete], [rm] and [remove] all select the delete
    command, and when its [DeleteSecret] call succeeds the command returns
    nil and the standard output is what it was before. *)
Theorem delete_success_is_silent
  (verb : string) (ctx : Context) (flags : list pflag.Arg) (name : string) (w : World)
  (o : deleteSecretOptions) (c : Client) (r1 r2 : Remote) :
  In verb ["delete"; "rm"; "remove"] ->
  pflag.Parse (cobra.Flags (deleteSecret B)) flags (cobra.opts (deleteSecret B)) = inl o ->
  newClient B ctx (remote w) = (inl c, r1) ->
  svcDeleteSecret (SecretsService B c) ctx name (recover o) r1 = (None, r2) ->
  cobra.findNext (cobra.commands (SecretCommand B)) verb = Some (cobra.Sub (deleteSecret B))
  /\ exists w',
       cobra.executeAny (cobra.Sub (deleteSecret B)) ctx flags [name] w = (Returned None, w')
       /\ stdout w' = stdout w.
Proof.
  intros V HP HN HD. split.
  - cbn in V. destruct V as [<- | [<- | [<- | []]]]; reflexivity.
  - unfold cobra.executeAny, cobra.execute. rewrite HP.
    cbn. unfold client_New. rewrite HN. cbn.
    unfold DeleteSecret. cbn. rewrite HD. cbn.
    eexists. split; reflexivity.
Qed.

(** C7, as amended.  [createSecretOptions] has exactly the four fields
    Label, Username, Password and Description.  Username, Password and
    Description are each bound to a flag of [create], and after a successful
    parse they hold the values given on the command line, the empty string
    by default.  No flag is bound to Label: it keeps its zero value, the
    empty string, through every parse. *)
Theorem create_options_and_their_flags
  (flags : list pflag.Arg) (o : createSecretOptions) :
  (forall x : createSecretOptions,
     x = mkCreateSecretOptions (Label x) (Username x) (Password x) (Description x))
  /\ populatedFromFlag FUsername (cobra.Flags (createSecret B))
  /\ populatedFromFlag FPassword (cobra.Flags (createSecret B))
  /\ populatedFromFlag FDescription (cobra.Flags (createSecret B))
  /\ (pflag.Parse (cobra.Flags (createSecret B)) flags (cobra.opts (createSecret B)) = inl o ->
      Label o = "" /\
      Username o = orEmpty (given "username" "u" flags) /\
      Password o = orEmpty (given "password" "p" flags) /\
      Description o = orEmpty (given "description" "d" flags)).
Proof.
  split; [intros []; reflexivity |].
  split; [| split; [| split]].
  - eexists. split; [left; reflexivity |]. intros v x. eexists. split; reflexivity.
  - eexists. split; [right; left; reflexivity |]. intros v x. eexists. split; reflexivity.
  - eexists. split; [right; right; left; reflexivity |]. intros v x. eexists. split; reflexivity.
  - intros HP. exact (Parse_create B _ _ HP).
Qed.

End Handlers.

Section Determinism.
Context `{Externals}.
Variables B1 B2 : Backend.

(** Breaks the next external call of either run into its possible replies. *)
Ltac reply :=
  match goal with
  | |- context [newClient ?b ?c ?r] => destruct (newClient b c r) as [[? | ?] ?]
  | |- context [svcCreateSecret ?s ?c ?x ?r] =>
      destruct (svcCreateSecret s c x r) as [[? | ?] ?]
  | |- context [svcInspectSecret ?s ?c ?x ?r] =>
      destruct (svcInspectSecret s c x r) as [[? | ?] ?]
  | |- context [svcListSecrets ?s ?c ?r] =>
      destruct (svcListSecrets s c r) as [[? | ?] ?]
  | |- context [svcDeleteSecret ?s ?c ?x ?b ?r] =>
      destruct (svcDeleteSecret s c x b r) as [[? |] ?]
  end; cbn -[printList].

(** Two logs that extend the same log are equal only if the extensions are. *)
Ltac same_log Hc :=
  unfold record; cbn; rewrite Hc, <- ?app_assoc;
  let E := fresh "E" in
  intros E; apply app_inv_head in E; inversion E; subst.

(** C10.  Each handler is deterministic.  Take two runs of the same handler
    with the same options, context and arguments, started with the same
    standard output and call log, against any two backends and remote
    states.  If the two runs logged the same calls with the same replies,
    they end with the same outcome and the same standard output. *)
Theorem handlers_are_deterministic
  (ctx : Context) (args : list string) (w1 w2 : World) :
  stdout w1 = stdout w2 ->
  calls w1 = calls w2 ->
  (forall o,
     let run1 := cobra.RunE (createSecret B1) o ctx args w1 in
     let run2 := cobra.RunE (createSecret B2) o ctx args w2 in
     calls (snd run1) = calls (snd run2) ->
     fst run1 = fst run2 /\ stdout (snd run1) = stdout (snd run2))
  /\ (forall o,
        let run1 := cobra.RunE (inspectSecret B1) o ctx args w1 in
        let run2 := cobra.RunE (inspectSecret B2) o ctx args w2 in
        calls (snd run1) = calls (snd run2) ->
        fst run1 = fst run2 /\ stdout (snd run1) = stdout (snd run2))
  /\ (forall o,
        let run1 := cobra.RunE (listSecrets B1) o ctx args w1 in
        let run2 := cobra.RunE (listSecrets B2) o ctx args w2 in
        calls (snd run1) = calls (snd run2) ->
        fst run1 = fst run2 /\ stdout (snd run1) = stdout (snd run2))
  /\ (forall o,
        let run1 := cobra.RunE (deleteSecret B1) o ctx args w1 in
        let run2 := cobra.RunE (deleteSecret B2) o ctx args w2 in
        calls (snd run1) = calls (snd run2) ->
        fst run1 = fst run2 /\ stdout (snd run1) = stdout (snd run2)).
Proof.
  intros Hs Hc. repeat apply conj; intros o; cbn -[printList]; unfold client_New.
  - do 2 reply; destruct args as [| name rest]; cbn;
      unfold CreateSecret; cbn; repeat reply;
      same_log Hc; rewrite ?Hs; auto.
  - do 2 reply; destruct args as [| id rest]; cbn;
      unfold InspectSecret; cbn; repeat reply;
      repeat match goal with
             | |- context [ToJSON ?s] => destruct (ToJSON s) as [? | ?] eqn:?; cbn
             end;
      same_log Hc; rewrite ?Hs; auto;
      match goal with
      | J1 : ToJSON ?s = _, J2 : ToJSON ?s = _ |- _ =>
          rewrite J1 in J2; inversion J2; subst; auto
      end.
  - do 2 reply; unfold ListSecrets; cbn -[printList]; repeat reply;
      rewrite ?printList_text; cbn;
      same_log Hc; rewrite ?Hs; auto.
  - do 2 reply; destruct args as [| name rest]; cbn;
      unfold DeleteSecret; cbn; repeat reply;
      same_log Hc; rewrite ?Hs; auto.
Qed.

End Determinism.

(** ** Further properties of the handlers *)

Section More.
Context `{Externals}.
Variable B : Backend.

(** Runs a handler up to its next external call. *)
Ltac run := cbn -[printList]; unfold client_New, CreateSecret, InspectSecret,
  ListSecrets, DeleteSecret; cbn -[printList].

(** Breaks the next external call into its possible replies. *)
Ltac answer :=
  match goal with
  | |- context [newClient ?b ?c ?r] => destruct (newClient b c r) as [[? | ?] ?]
  | |- context [svcCreateSecret ?s ?c ?x ?r] =>
      destruct (svcCreateSecret s c x r) as [[? | ?] ?]
  | |- context [svcInspectSecret ?s ?c ?x ?r] =>
      destruct (svcInspectSecret s c x r) as [[? | ?] ?]
  | |- context [svcListSecrets ?s ?c ?r] =>
      destruct (svcListSecrets s c r) as [[? | ?] ?]
  | |- context [svcDeleteSecret ?s ?c ?x ?b ?r] =>
      destruct (svcDeleteSecret s c x b r) as [[? |] ?]
  | |- context [ToJSON ?s] => destruct (ToJSON s) as [? | ?]
  end; cbn -[printList].

(** X1.  [inspect ID], when the client is built, the service finds the
    secret and the secret serializes: one [InspectSecret] request for the
    first argument, the JSON text and a newline on the standard output, and
    nil returned. *)
Theorem inspect_prints_json
  (o : unit) (ctx : Context) (id : string) (rest : list string) (w : World)
  (c : Client) (r1 r2 : Remote) (secret : Secret) (out : string) :
  newClient B ctx (remote w) = (inl c, r1) ->
  svcInspectSecret (SecretsService B c) ctx id r1 = (inl secret, r2) ->
  ToJSON secret = inl out ->
  cobra.RunE (inspectSecret B) o ctx (id :: rest) w =
    (Returned None,
     {| stdout := stdout w ++ out ++ NL;
        remote := r2;
        calls := calls w ++ [EvNew ctx None; EvInspectSecret ctx id (inl secret)] |}).
Proof.
  intros HN HI HJ. run. rewrite HN. cbn. rewrite HI. cbn. rewrite HJ. cbn.
  unfold record. cbn. rewrite <- app_assoc. reflexivity.
Qed.

(** X2.  When [client.New] fails, each of the four handlers returns that
    error at once: whatever the options and the arguments, no service call
    is made and nothing is printed. *)
Theorem client_failure_stops_every_handler
  (ctx : Context) (args : list string) (w : World) (err : error) (r1 : Remote) :
  newClient B ctx (remote w) = (inr err, r1) ->
  let w' := {| stdout := stdout w; remote := r1;
               calls := calls w ++ [EvNew ctx (Some err)] |} in
  (forall o, cobra.RunE (createSecret B) o ctx args w = (Returned (Some err), w'))
  /\ (forall o, cobra.RunE (inspectSecret B) o ctx args w = (Returned (Some err), w'))
  /\ (forall o, cobra.RunE (listSecrets B) o ctx args w = (Returned (Some err), w'))
  /\ (forall o, cobra.RunE (deleteSecret B) o ctx args w = (Returned (Some err), w')).
Proof.
  intros HN w'. repeat apply conj; intros o; run; rewrite HN; reflexivity.
Qed.

(** X3.  Only a handler that returns nil prints: when a handler returns an
    error, or panics, the standard output is what it was before. *)
Theorem only_success_prints
  (ctx : Context) (args : list string) (w : World) :
  (forall o, fst (cobra.RunE (createSecret B) o ctx args w) <> Returned None ->
             stdout (snd (cobra.RunE (createSecret B) o ctx args w)) = stdout w)
  /\ (forall o, fst (cobra.RunE (inspectSecret B) o ctx args w) <> Returned None ->
                stdout (snd (cobra.RunE (inspectSecret B) o ctx args w)) = stdout w)
  /\ (forall o, fst (cobra.RunE (listSecrets B) o ctx args w) <> Returned None ->
                stdout (snd (cobra.RunE (listSecrets B) o ctx args w)) = stdout w)
  /\ (forall o, fst (cobra.RunE (deleteSecret B) o ctx args w) <> Returned None ->
                stdout (snd (cobra.RunE (deleteSecret B) o ctx args w)) = stdout w).
Proof.
  repeat apply conj; intros o; run; answer; try (intros; reflexivity).
  - destruct args as [| name rest]; run; [intros; reflexivity |].
    answer; intros E; [contradiction E |]; reflexivity.
  - destruct args as [| id rest]; run; [intros; reflexivity |].
    repeat answer; intros E; try reflexivity. contradiction E; reflexivity.
  - answer; intros E; [| reflexivity].
    rewrite printList_text in E. contradiction E; reflexivity.
  - destruct args as [| name rest]; run; [intros; reflexivity |].
    answer; intros E; reflexivity.
Qed.

(** X4.  [delete] never writes to the standard output, whether it succeeds,
    fails or is run without an argument. *)
Theorem delete_never_prints
  (o : deleteSecretOptions) (ctx : Context) (args : list string) (w : World) :
  stdout (snd (cobra.RunE (deleteSecret B) o ctx args w)) = stdout w.
Proof.
  run. answer; [| reflexivity].
  destruct args as [| name rest]; run; [reflexivity |].
  answer; reflexivity.
Qed.

Lemma madeCalls_one (w : World) (ctx : Context) (err : option error) (rem : Remote) :
  madeCalls w (record (EvNew ctx err) rem w) ctx [MNew].
Proof.
  exists [EvNew ctx err]. split; [reflexivity |]. split; [reflexivity |].
  repeat constructor.
Qed.

Lemma madeCalls_two (w w' : World) (ctx : Context) (ev : Event) :
  calls w' = ((calls w ++ [EvNew ctx None]) ++ [ev])%list ->
  eventContext ev = ctx ->
  madeCalls w w' ctx [MNew; eventMethod ev].
Proof.
  intros L E. exists [EvNew ctx None; ev].
  split; [unfold issued; rewrite L, <- app_assoc; reflexivity |].
  split; [reflexivity |]. repeat constructor. exact E.
Qed.

(** X5.  Every run of a handler, whatever its outcome, first calls
    [client.New] and then makes at most one call, to the service method of
    its own command; all the calls are made with the context of the
    command. *)
Theorem handlers_call_new_then_their_method
  (ctx : Context) (args : list string) (w : World) :
  (forall o, let w' := snd (cobra.RunE (createSecret B) o ctx args w) in
             madeCalls w w' ctx [MNew] \/ madeCalls w w' ctx [MNew; MCreateSecret])
  /\ (forall o, let w' := snd (cobra.RunE (inspectSecret B) o ctx args w) in
                madeCalls w w' ctx [MNew] \/ madeCalls w w' ctx [MNew; MInspectSecret])
  /\ (forall o, let w' := snd (cobra.RunE (listSecrets B) o ctx args w) in
                madeCalls w w' ctx [MNew] \/ madeCalls w w' ctx [MNew; MListSecrets])
  /\ (forall o, let w' := snd (cobra.RunE (deleteSecret B) o ctx args w) in
                madeCalls w w' ctx [MNew] \/ madeCalls w w' ctx [MNew; MDeleteSecret]).
Proof.
  repeat apply conj; intros o; run; answer; try (left; apply madeCalls_one).
  - destruct args as [| name rest]; run; [left; apply madeCalls_one |].
    right. answer;
      eapply (madeCalls_two w _ (EvCreateSecret ctx _ _)); reflexivity.
  - destruct args as [| id rest]; run; [left; apply madeCalls_one |].
    right. repeat answer;
      eapply (madeCalls_two w _ (EvInspectSecret ctx _ _)); reflexivity.
  - right. answer; rewrite ?printList_text;
      eapply (madeCalls_two w _ (EvListSecrets ctx _)); reflexivity.
  - destruct args as [| name rest]; run; [left; apply madeCalls_one |].
    right. answer;
      eapply (madeCalls_two w _ (EvDeleteSecret ctx _ _ _)); reflexivity.
Qed.

(** X6.  [list] declares no argument check and its handler never reads the
    arguments: with any positional arguments the command runs exactly as
    with none. *)
Theorem list_ignores_arguments
  (ctx : Context) (flags : list pflag.Arg) (args : list string) (w : World) :
  cobra.execute (listSecrets B) ctx flags args w =
  cobra.execute (listSecrets B) ctx flags [] w.
Proof.
  unfold cobra.execute.
  destruct (pflag.Parse _ _ _); reflexivity.
Qed.

(** X7.  A handler that is called without any argument, as it would be
    without the arity check, builds the client and then panics at [args[0]]:
    no service call is made and nothing is printed. *)
Theorem handlers_panic_without_argument
  (ctx : Context) (w : World) (c : Client) (r1 : Remote) :
  newClient B ctx (remote w) = (inl c, r1) ->
  let w' := {| stdout := stdout w; remote := r1;
               calls := calls w ++ [EvNew ctx None] |} in
  (forall o, cobra.RunE (createSecret B) o ctx [] w = (Panicked, w'))
  /\ (forall o, cobra.RunE (inspectSecret B) o ctx [] w = (Panicked, w'))
  /\ (forall o, cobra.RunE (deleteSecret B) o ctx [] w = (Panicked, w')).
Proof.
  intros HN w'. repeat apply conj; intros o; run; rewrite HN; reflexivity.
Qed.

(** A handler that is given at least one argument does not panic. *)
Lemma no_panic_with_argument (name : string) (rest : list string)
  (ctx : Context) (w : World) :
  (forall o, fst (cobra.RunE (createSecret B) o ctx (name :: rest) w) <> Panicked)
  /\ (forall o, fst (cobra.RunE (inspectSecret B) o ctx (name :: rest) w) <> Panicked)
  /\ (forall o, fst (cobra.RunE (deleteSecret B) o ctx (name :: rest) w) <> Panicked).
Proof.
  repeat apply conj; intros o; run; repeat answer; discriminate.
Qed.

(** A command with [ExactArgs(1)] runs its handler on one argument only. *)
Lemma execute_cases {O : Type} (cmd : cobra.Command O)
  (ctx : Context) (flags : list pflag.Arg) (args : list string) (w : World) :
  cobra.Args cmd = Some (cobra.ExactArgs 1) ->
  (exists err, cobra.execute cmd ctx flags args w = (Returned (Some err), w))
  \/ exists o name, args = [name] /\
       cobra.execute cmd ctx flags args w = cobra.RunE cmd o ctx [name] w.
Proof.
  intros HA. unfold cobra.execute, cobra.ValidateArgs. rewrite HA.
  destruct (pflag.Parse (cobra.Flags cmd) flags (cobra.opts cmd)) as [o | err];
    [| left; eexists; reflexivity].
  destruct args as [| name [| more rest]].
  - left. eexists. reflexivity.
  - right. exists o, name. split; reflexivity.
  - left. eexists. reflexivity.
Qed.

(** X8.  Run through their commands, the four handlers never panic: the
    arity check of [create], [inspect] and [delete] lets the handler run only
    when [args[0]] exists, and [list] reads no argument. *)
Theorem commands_never_panic
  (ctx : Context) (flags : list pflag.Arg) (args : list string) (w : World) :
  fst (cobra.execute (createSecret B) ctx flags args w) <> Panicked
  /\ fst (cobra.execute (inspectSecret B) ctx flags args w) <> Panicked
  /\ fst (cobra.execute (listSecrets B) ctx flags args w) <> Panicked
  /\ fst (cobra.execute (deleteSecret B) ctx flags args w) <> Panicked.
Proof.
  split; [| split; [| split]].
  - destruct (execute_cases (createSecret B) ctx flags args w eq_refl)
      as [[err E] | (o & name & -> & E)]; rewrite E; [discriminate |].
    apply (no_panic_with_argument name [] ctx w).
  - destruct (execute_cases (inspectSecret B) ctx flags args w eq_refl)
      as [[err E] | (o & name & -> & E)]; rewrite E; [discriminate |].
    apply (no_panic_with_argument name [] ctx w).
  - unfold cobra.execute. destruct (pflag.Parse _ _ _); [| discriminate].
    run. repeat answer; try discriminate.
    rewrite printList_text. discriminate.
  - destruct (execute_cases (deleteSecret B) ctx flags args w eq_refl)
      as [[err E] | (o & name & -> & E)]; rewrite E; [discriminate |].
    apply (no_panic_with_argument name [] ctx w).
Qed.

(** X9.  The group [secret] answers to exactly seven words: [create],
    [inspect], [list] with its alias [ls], and [delete] with its aliases
    [rm] and [remove]; each selects its own command and no other word
    selects any. *)
Theorem secret_answers_to_seven_words (verb : string) :
  let sub := cobra.findNext (cobra.commands (SecretCommand B)) in
  sub "create" = Some (cobra.Sub (createSecret B))
  /\ sub "inspect" = Some (cobra.Sub (inspectSecret B))
  /\ sub "list" = Some (cobra.Sub (listSecrets B))
  /\ sub "ls" = Some (cobra.Sub (listSecrets B))
  /\ sub "delete" = Some (cobra.Sub (deleteSecret B))
  /\ sub "rm" = Some (cobra.Sub (deleteSecret B))
  /\ sub "remove" = Some (cobra.Sub (deleteSecret B))
  /\ (~ In verb verbs -> sub verb = None).
Proof.
  intros sub. repeat (split; [reflexivity |]).
  intros NI. unfold sub, cobra.findNext. cbn -[String.eqb].
  repeat match goal with
         | |- context [String.eqb ?a ?b] =>
             destruct (String.eqb_spec a b) as [E | _];
             [exfalso; apply NI; rewrite <- ?E, ?E; cbn; tauto |];
             cbn -[String.eqb]
         end.
  reflexivity.
Qed.

Lemma append_nil_r (s : string) : s ++ "" = s.
Proof. induction s as [| a s IH]; cbn; [| rewrite IH]; reflexivity. Qed.

Lemma append_assoc (a b c : string) : (a ++ b) ++ c = a ++ b ++ c.
Proof. induction a as [| x a IH]; cbn; [| rewrite IH]; reflexivity. Qed.

Lemma concat_cons (a : string) (l : list string) :
  String.concat "" (a :: l) = a ++ String.concat "" l.
Proof. destruct l; cbn; [rewrite append_nil_r |]; reflexivity. Qed.

Lemma concat_app (l1 l2 : list string) :
  String.concat "" (l1 ++ l2) = String.concat "" l1 ++ String.concat "" l2.
Proof.
  induction l1 as [| a l1 IH]; [reflexivity |].
  change ((a :: l1) ++ l2)%list with (a :: (l1 ++ l2)%list).
  rewrite !concat_cons, IH, append_assoc. reflexivity.
Qed.

Lemma Write_loop (chunks : list string) :
  forall w : tabwriter.Writer,
  fold_left tabwriter.Write chunks w =
  tabwriter.mkWriter (tabwriter.output w) (tabwriter.minwidth w) (tabwriter.tabwidth w)
    (tabwriter.padding w) (tabwriter.padchar w) (tabwriter.flags w)
    (tabwriter.buf w ++ chunks).
Proof.
  induction chunks as [| s rest IH]; intros w.
  - cbn. rewrite app_nil_r. destruct w; reflexivity.
  - cbn [fold_left]. rewrite IH. cbn. rewrite <- app_assoc. reflexivity.
Qed.

(** X10.  [printSection] on the standard output: when it returns, the text
    that the standard output has gained is the aligned form, with the
    settings 20, 1, 3, space and 0, of the headers joined by tabs, a
    newline, and then whatever the printer wrote, in the order it wrote it;
    the remote state and the call log are untouched.  With no header and a
    printer that writes nothing, that text is the aligned form of a lone
    newline. *)
Theorem printSection_prints_header_then_body
  (headers chunks : list string) (w : World) :
  printSection os_Stdout (fun t => fold_left tabwriter.Write chunks t) headers w =
    (Returned tt,
     {| stdout := stdout w ++
          tabwriter_format 20 1 3 " "%char 0
            (Join headers TAB ++ NL ++ String.concat "" chunks);
        remote := remote w;
        calls := calls w |})
  /\ printSection os_Stdout (fun t => t) [] w =
     (Returned tt,
      {| stdout := stdout w ++ tabwriter_format 20 1 3 " "%char 0 NL;
         remote := remote w;
         calls := calls w |}).
Proof.
  split; [| reflexivity].
  unfold printSection. rewrite Write_loop. unfold tabwriter.Flush.
  cbn -[String.concat Join]. unfold Fprintln. cbn -[String.concat Join].
  rewrite concat_cons, append_assoc. reflexivity.
Qed.

Lemma count_app (c : ascii) (a b : string) :
  count c (a ++ b) = count c a + count c b.
Proof.
  induction a as [| x a IH]; cbn; [reflexivity |].
  rewrite IH. apply Nat.add_assoc.
Qed.

Lemma count_row (c : ascii) (s : Secret) :
  c = "009"%char \/ c = "010"%char -> plain s -> count c (row s) = count c header.
Proof.
  intros Hc P. destruct (P c Hc) as (I & N & D).
  unfold row. rewrite !count_app, I, N, D.
  destruct Hc as [-> | ->]; reflexivity.
Qed.

Lemma count_table (c : ascii) (l : list Secret) :
  c = "009"%char \/ c = "010"%char -> Forall plain l ->
  count c (table l) = S (List.length l) * count c header.
Proof.
  intros Hc F. unfold table. rewrite concat_cons, count_app.
  induction F as [| s l P F IH].
  - cbn. lia.
  - cbn [map]. rewrite concat_cons, count_app, (count_row Hc P).
    cbn [List.length]. lia.
Qed.

(** X11.  When no printed field of any secret holds a tab or a newline, the
    table text that [printList] sends out for [n] secrets holds exactly
    [1 + n] newlines and exactly [2 * (1 + n)] tabs: the header line and one
    line per secret, with two tabs for each of them. *)
Theorem table_has_three_cells_per_line (out : io_Writer) (l : list Secret) :
  Forall plain l ->
  printList out l = out (aligned (table l))
  /\ count "010"%char (table l) = S (List.length l)
  /\ count "009"%char (table l) = 2 * S (List.length l).
Proof.
  intros F. split; [apply printList_text |].
  split; rewrite count_table by auto; cbn [count header]; cbn; lia.
Qed.

(** An occurrence is accepted by [create] exactly when it is one of its
    three flags with a value; whether it is does not depend on the options
    held so far. *)
Lemma parseArg_create_accepts (a : pflag.Arg) (o : createSecretOptions) :
  (exists o', pflag.parseArg (cobra.Flags (createSecret B)) a o = inl o')
  <-> createAccepts a = true.
Proof.
  unfold pflag.parseArg, createAccepts.
  destruct a as [n v | s v]; cbn -[String.eqb].
  - destruct (String.eqb_spec "username" n) as [<- | _].
    { destruct v; cbn;
        (split; [intros [o' E]; (reflexivity || discriminate E)
                | intros E; (discriminate E || (eexists; reflexivity))]). }
    destruct (String.eqb_spec "password" n) as [<- | _].
    { destruct v; cbn;
        (split; [intros [o' E]; (reflexivity || discriminate E)
                | intros E; (discriminate E || (eexists; reflexivity))]). }
    destruct (String.eqb_spec "description" n) as [<- | _].
    { destruct v; cbn;
        (split; [intros [o' E]; (reflexivity || discriminate E)
                | intros E; (discriminate E || (eexists; reflexivity))]). }
    cbn. split; [intros [o' E]; discriminate E | discriminate].
  - destruct (String.eqb_spec s "") as [-> | _]; cbn -[String.eqb].
    { split; [intros [o' E]; discriminate E | discriminate]. }
    destruct (String.eqb_spec "u" s) as [<- | _].
    { destruct v; cbn;
        (split; [intros [o' E]; (reflexivity || discriminate E)
                | intros E; (discriminate E || (eexists; reflexivity))]). }
    destruct (String.eqb_spec "p" s) as [<- | _].
    { destruct v; cbn;
        (split; [intros [o' E]; (reflexivity || discriminate E)
                | intros E; (discriminate E || (eexists; reflexivity))]). }
    destruct (String.eqb_spec "d" s) as [<- | _].
    { destruct v; cbn;
        (split; [intros [o' E]; (reflexivity || discriminate E)
                | intros E; (discriminate E || (eexists; reflexivity))]). }
    cbn. split; [intros [o' E]; discriminate E | discriminate].
Qed.

Lemma parseArg_delete_accepts (a : pflag.Arg) (o : deleteSecretOptions) :
  (exists o', pflag.parseArg (cobra.Flags (deleteSecret B)) a o = inl o')
  <-> deleteAccepts a = true.
Proof.
  unfold pflag.parseArg, deleteAccepts, boolOf.
  destruct a as [n v | s v]; cbn -[String.eqb ParseBool].
  - destruct (String.eqb_spec "recover" n) as [<- | _];
      [| cbn; split; [intros [o' E]; discriminate E | discriminate]].
    destruct v as [text |]; cbn -[ParseBool]; unfold pflag.boolValue.
    + destruct (ParseBool text) as [b |];
        (split; [intros [o' E]; (reflexivity || discriminate E)
                | intros E; (discriminate E || (eexists; reflexivity))]).
    + cbn. split; eauto.
  - destruct (String.eqb_spec s "") as [-> | Hs]; cbn -[String.eqb ParseBool].
    { split; [intros [o' E]; discriminate E | discriminate]. }
    destruct (String.eqb_spec "" s) as [<- | _]; [contradiction |].
    cbn. split; [intros [o' E]; discriminate E | discriminate].
Qed.

(** A parse succeeds exactly when each occurrence is accepted on its own. *)
Lemma Parse_accepts {O : Type} (formal : list (pflag.Flag O)) (ok : pflag.Arg -> bool) :
  (forall a o, (exists o', pflag.parseArg formal a o = inl o') <-> ok a = true) ->
  forall flags o,
  (exists o', pflag.Parse formal flags o = inl o') <-> forallb ok flags = true.
Proof.
  intros One. induction flags as [| a rest IH]; intros o.
  - cbn. split; eauto.
  - cbn [pflag.Parse forallb]. rewrite andb_true_iff, <- (One a o).
    destruct (pflag.parseArg formal a o) as [o1 | err] eqn:E.
    + rewrite (IH o1). split; [intros P; split; eauto | intros [_ P]; exact P].
    + split; [intros [o' P]; discriminate P | intros [[o' P] _]; discriminate P].
Qed.

(** A command line with an occurrence that a command does not accept makes
    the command fail before its handler runs. *)
Lemma execute_refuses {O : Type} (cmd : cobra.Command O) (ok : pflag.Arg -> bool)
  (ctx : Context) (flags : list pflag.Arg) (args : list string) (w : World) (a : pflag.Arg) :
  (forall a o, (exists o', pflag.parseArg (cobra.Flags cmd) a o = inl o') <-> ok a = true) ->
  In a flags -> ok a = false ->
  exists err, cobra.execute cmd ctx flags args w = (Returned (Some err), w).
Proof.
  intros One I F. unfold cobra.execute.
  destruct (pflag.Parse (cobra.Flags cmd) flags (cobra.opts cmd)) as [o | err] eqn:E;
    [| eexists; reflexivity].
  assert (forallb ok flags = true) as T
    by (apply (Parse_accepts (cobra.Flags cmd) ok One flags (cobra.opts cmd)); eauto).
  rewrite forallb_forall in T. rewrite (T a I) in F. discriminate F.
Qed.

(** X12.  [create] takes its three flags under their names and under the
    shorthands [-u], [-p], [-d]: a command line on which each flag is one of
    them and has a value is accepted.  A flag of the three that comes
    without a value makes the command fail before its handler runs: no
    client is built and nothing is printed. *)
Theorem create_flags_need_values
  (ctx : Context) (flags : list pflag.Arg) (args : list string) (w : World) :
  (forallb createAccepts flags = true ->
   exists o, pflag.Parse (cobra.Flags (createSecret B)) flags (cobra.opts (createSecret B))
             = inl o)
  /\ (forall a, In a flags ->
      names "username" "u" a || names "password" "p" a || names "description" "d" a = true ->
      pflag.argValue a = None ->
      exists err, cobra.execute (createSecret B) ctx flags args w = (Returned (Some err), w)).
Proof.
  split.
  - apply Parse_accepts. apply parseArg_create_accepts.
  - intros a I _ V.
    apply (execute_refuses (createSecret B) createAccepts ctx flags args w a
             parseArg_create_accepts I).
    unfold createAccepts. rewrite V. apply andb_false_r.
Qed.

(** X13.  [delete] takes [--recover] bare or with a text that [ParseBool]
    understands: a command line made of such occurrences is accepted.  A
    text it does not understand, such as [maybe], makes the command fail
    before its handler runs: no client is built and nothing is printed. *)
Theorem delete_recover_needs_a_boolean
  (ctx : Context) (flags : list pflag.Arg) (args : list string) (w : World) :
  (forallb deleteAccepts flags = true ->
   exists o, pflag.Parse (cobra.Flags (deleteSecret B)) flags (cobra.opts (deleteSecret B))
             = inl o)
  /\ (forall text, In (pflag.Long "recover" (Some text)) flags -> ParseBool text = None ->
      exists err, cobra.execute (deleteSecret B) ctx flags args w = (Returned (Some err), w)).
Proof.
  split.
  - apply Parse_accepts. apply parseArg_delete_accepts.
  - intros text I V.
    apply (execute_refuses (deleteSecret B) deleteAccepts ctx flags args w _
             parseArg_delete_accepts I).
    unfold deleteAccepts, boolOf. cbn -[ParseBool]. rewrite V. reflexivity.
Qed.

(** An occurrence under a shorthand is set like the one under the long name,
    or both are refused. *)
Lemma parseArg_longForm (a : pflag.Arg) (o : createSecretOptions) :
  pflag.parseArg (cobra.Flags (createSecret B)) (longForm a) o =
  pflag.parseArg (cobra.Flags (createSecret B)) a o
  \/ (exists e1 e2,
        pflag.parseArg (cobra.Flags (createSecret B)) (longForm a) o = inr e1 /\
        pflag.parseArg (cobra.Flags (createSecret B)) a o = inr e2).
Proof.
  destruct a as [n v | s v]; [left; reflexivity |].
  unfold longForm.
  destruct (String.eqb_spec s "u") as [-> | _];
    [destruct v; [left; reflexivity | right; eexists; eexists; split; reflexivity] |].
  destruct (String.eqb_spec s "p") as [-> | _];
    [destruct v; [left; reflexivity | right; eexists; eexists; split; reflexivity] |].
  destruct (String.eqb_spec s "d") as [-> | _];
    [destruct v; [left; reflexivity | right; eexists; eexists; split; reflexivity] |].
  left. reflexivity.
Qed.

Lemma Parse_longForm (flags : list pflag.Arg) :
  forall o o' : createSecretOptions,
  pflag.Parse (cobra.Flags (createSecret B)) flags o = inl o' ->
  pflag.Parse (cobra.Flags (createSecret B)) (map longForm flags) o = inl o'.
Proof.
  induction flags as [| a rest IH]; intros o o' E; [exact E |].
  cbn [map pflag.Parse] in *.
  destruct (parseArg_longForm a o) as [-> | (e1 & e2 & _ & E2)].
  - destruct (pflag.parseArg (cobra.Flags (createSecret B)) a o); [auto | discriminate E].
  - rewrite E2 in E. discriminate E.
Qed.

(** X14.  On an accepted command line of [create] the shorthands [-u], [-p]
    and [-d] stand for [--username], [--password] and [--description]:
    writing the long names instead gives the same run. *)
Theorem create_shorthands_are_the_long_names
  (ctx : Context) (flags : list pflag.Arg) (args : list string) (w : World)
  (o : createSecretOptions) :
  pflag.Parse (cobra.Flags (createSecret B)) flags (cobra.opts (createSecret B)) = inl o ->
  cobra.execute (createSecret B) ctx (map longForm flags) args w =
  cobra.execute (createSecret B) ctx flags args w.
Proof.
  intros E. unfold cobra.execute. rewrite (Parse_longForm _ _ E), E. reflexivity.
Qed.

(** X15.  For [create], only the last value given to each flag counts: two
    accepted command lines that give the same values to [--username],
    [--password] and [--description], in whatever order, spelling and
    number of repetitions, lead to the same run. *)
Theorem create_flags_count_by_last_value
  (ctx : Context) (flags1 flags2 : list pflag.Arg) (args : list string) (w : World)
  (o1 o2 : createSecretOptions) :
  pflag.Parse (cobra.Flags (createSecret B)) flags1 (cobra.opts (createSecret B)) = inl o1 ->
  pflag.Parse (cobra.Flags (createSecret B)) flags2 (cobra.opts (createSecret B)) = inl o2 ->
  orEmpty (given "username" "u" flags1) = orEmpty (given "username" "u" flags2) ->
  orEmpty (given "password" "p" flags1) = orEmpty (given "password" "p" flags2) ->
  orEmpty (given "description" "d" flags1) = orEmpty (given "description" "d" flags2) ->
  cobra.execute (createSecret B) ctx flags1 args w =
  cobra.execute (createSecret B) ctx flags2 args w.
Proof.
  intros E1 E2 U P D.
  destruct (Parse_create B _ _ E1) as (L1 & U1 & P1 & D1).
  destruct (Parse_create B _ _ E2) as (L2 & U2 & P2 & D2).
  cbn in L1, U1, P1, D1, L2, U2, P2, D2.
  assert (o1 = o2) as ->.
  { destruct o1, o2. cbn in *. unfold orEmpty in U, P, D. congruence. }
  unfold cobra.execute. rewrite E1, E2. reflexivity.
Qed.

End More.

(** * The properties on explicit runs *)

Section Runs.
Import Demo.

(** [create alpha -u ann --description hi] against an empty store. *)
Lemma create_issues_one_request_run :
  exists w',
    cobra.execute (createSecret healthy) 7
      [pflag.Short "u" (Some "ann"); pflag.Long "description" (Some "hi")] ["alpha"]
      (world []) = (Returned None, w')
    /\ @issued externals (world []) w'
         [@EvNew externals 7 None;
          @EvCreateSecret externals 7
            (secrets.mkSecret "" "alpha" "ann" "" "hi") (inl "id-alpha")]
    /\ @remote externals w' = [secrets.mkSecret "id-alpha" "alpha" "ann" "" "hi"]
    /\ @stdout externals w' = "" ++ "id-alpha" ++ NL.
Proof.
  destruct (@create_issues_one_request externals healthy 7
              [pflag.Short "u" (Some "ann"); pflag.Long "description" (Some "hi")]
              "alpha" (world [])
              (mkCreateSecretOptions "" "ann" "" "hi") 0 [] eq_refl eq_refl)
    as (w' & E & I & R & P & _).
  exists w'. repeat split; [exact E | exact I | exact R | exact (P "id-alpha" eq_refl)].
Defined.

(** [create alpha] when no client can be built: the handler returns the
    error of [client.New] and no request reaches the service. *)
Lemma create_without_client_issues_no_request :
  cobra.execute (createSecret (backend (Some "no context") None)) 7 [] ["alpha"] start =
  (Returned (Some "no context"),
   @mkWorld externals "" [alpha; beta]
     [@EvNew externals 7 (Some "no context")]).
Proof. reflexivity. Qed.

(** [list] against a store that holds [alpha] and [beta]. *)
Lemma list_renders_rows_in_order_run :
  cobra.execute (listSecrets healthy) 7 [] [] start =
  (Returned None,
   @mkWorld externals
     ("" ++ @aligned externals (String.concat "" (header :: map row [alpha; beta])))
     [alpha; beta]
     ([] ++ [@EvNew externals 7 None;
             @EvListSecrets externals 7 (inl [alpha; beta])])%list).
Proof.
  apply (proj1 (@list_renders_rows_in_order externals healthy 7 [] start
                  0 [alpha; beta] [alpha; beta] [alpha; beta] eq_refl eq_refl)).
Defined.

(** [delete beta --recover]. *)
Lemma delete_passes_given_recover_run :
  cobra.execute (deleteSecret healthy) 7 [pflag.Long "recover" None] ["beta"] start =
  (Returned None,
   @mkWorld externals "" [alpha]
     ([] ++ [@EvNew externals 7 None;
             @EvDeleteSecret externals 7 "beta" true None])%list).
Proof.
  apply (proj1 (@delete_passes_given_recover externals healthy 7
                  [pflag.Long "recover" None] "beta" start
                  (mkDeleteSecretOptions true) 0 [alpha; beta] eq_refl eq_refl)).
Defined.

(** [delete beta --recover=false]: the flag is on the command line and the
    request carries [false]. *)
Lemma recover_present_but_false :
  present "recover" [pflag.Long "recover" (Some "false")] = true /\
  @calls externals
    (snd (cobra.execute (deleteSecret healthy) 7
            [pflag.Long "recover" (Some "false")] ["beta"] start)) =
  [@EvNew externals 7 None;
   @EvDeleteSecret externals 7 "beta" false None].
Proof. split; reflexivity. Qed.

(** [create alpha] while the service is down. *)
Lemma service_error_prints_nothing_run :
  exists w',
    cobra.RunE (createSecret unreachable) (mkCreateSecretOptions "" "" "" "") 7 ["alpha"] start =
    (Returned (Some "service unavailable"), w')
    /\ @stdout externals w' = "".
Proof.
  apply (proj1 (@service_error_prints_nothing externals unreachable 7 start
                  0 [alpha; beta] [alpha; beta] "service unavailable" eq_refl)
           (mkCreateSecretOptions "" "" "" "") "alpha" [] eq_refl).
Defined.

(** [create] without a name. *)
Lemma arity_checked_before_any_call_run :
  exists err, cobra.execute (createSecret healthy) 7 [] [] start = (Returned (Some err), start).
Proof.
  apply (proj1 (@arity_checked_before_any_call externals healthy 7 [] [] start
                  (fun E : 0 = 1 => O_S 0 E))).
Defined.

(** [create alpha] when no client can be built. *)
Lemma handler_errors_come_from_the_client_run :
  @fromClient externals start
    (snd (cobra.RunE (createSecret (backend (Some "no context") None))
            (mkCreateSecretOptions "" "" "" "") 7 ["alpha"] start))
    "no context".
Proof.
  apply (proj1 (@handler_errors_come_from_the_client externals
                  (backend (Some "no context") None) 7 ["alpha"] start
                  (snd (cobra.RunE (createSecret (backend (Some "no context") None))
                          (mkCreateSecretOptions "" "" "" "") 7 ["alpha"] start))
                  "no context"
                  (fun s => ex_intro _ (json s) eq_refl))
           (mkCreateSecretOptions "" "" "" "") eq_refl).
Defined.

(** [create alpha -p pw]: the three bound fields after the parse. *)
Lemma create_options_and_their_flags_run :
  Label (mkCreateSecretOptions "" "" "pw" "") = ""
  /\ Username (mkCreateSecretOptions "" "" "pw" "") =
     orEmpty (given "username" "u" [pflag.Short "p" (Some "pw")])
  /\ Password (mkCreateSecretOptions "" "" "pw" "") =
     orEmpty (given "password" "p" [pflag.Short "p" (Some "pw")])
  /\ Description (mkCreateSecretOptions "" "" "pw" "") =
     orEmpty (given "description" "d" [pflag.Short "p" (Some "pw")]).
Proof.
  apply (proj2 (proj2 (proj2 (proj2
           (@create_options_and_their_flags externals healthy
              [pflag.Short "p" (Some "pw")] (mkCreateSecretOptions "" "" "pw" "")))))
           eq_refl).
Defined.

(** No flag of [create] writes to Label. *)
Lemma Label_has_no_flag :
  ~ (forall f : createField, populatedFromFlag f (cobra.Flags (createSecret healthy))).
Proof.
  intros All. destruct (All FLabel) as (fl & In_fl & Sets).
  destruct (Sets "x" (mkCreateSecretOptions "" "" "" "")) as (o' & S & L).
  cbn in In_fl. destruct In_fl as [<- | [<- | [<- | []]]];
    cbn in S; inversion S; subst; discriminate L.
Qed.

(** [rm beta]. *)
Lemma delete_success_is_silent_run :
  cobra.findNext (cobra.commands (SecretCommand healthy)) "rm" =
    Some (cobra.Sub (deleteSecret healthy))
  /\ exists w',
       cobra.executeAny (cobra.Sub (deleteSecret healthy)) 7 [] ["beta"] start =
       (Returned None, w')
       /\ @stdout externals w' = "".
Proof.
  apply (@delete_success_is_silent externals healthy "rm" 7 [] "beta" start
           (mkDeleteSecretOptions false) 0 [alpha; beta] [alpha]
           (or_intror (or_introl eq_refl)) eq_refl eq_refl eq_refl).
Defined.

(** [list] against an empty store. *)
Lemma list_header_comes_first_run :
  exists w',
    cobra.execute (listSecrets healthy) 7 [] [] (world []) = (Returned None, w')
    /\ @stdout externals w' = ("" ++ @aligned externals header).
Proof.
  apply (proj2 (proj2 (proj2
           (@list_header_comes_first externals healthy os_Stdout [] 7 []
              (world []) 0 [] [])))
           eq_refl eq_refl).
Defined.

(** [create gamma] against two stores with different contents: the service
    gives the same answer in both runs, and so does the handler. *)
Lemma handlers_are_deterministic_run :
  fst (cobra.RunE (createSecret healthy) (mkCreateSecretOptions "" "" "" "") 7 ["gamma"] start) =
  fst (cobra.RunE (createSecret healthy) (mkCreateSecretOptions "" "" "" "") 7 ["gamma"]
         (world []))
  /\ @stdout externals
       (snd (cobra.RunE (createSecret healthy) (mkCreateSecretOptions "" "" "" "") 7 ["gamma"]
               start)) =
     @stdout externals
       (snd (cobra.RunE (createSecret healthy) (mkCreateSecretOptions "" "" "" "") 7 ["gamma"]
               (world []))).
Proof.
  apply (proj1 (@handlers_are_deterministic externals healthy healthy 7 ["gamma"]
                  start (world []) eq_refl eq_refl)
           (mkCreateSecretOptions "" "" "" "") eq_refl).
Defined.

End Runs.

(** ** The further properties on explicit runs *)

Section MoreRuns.
Import Demo.

(** [inspect id-beta] against a store that holds [beta]. *)
Lemma inspect_prints_json_run :
  cobra.RunE (inspectSecret healthy) tt 7 ["id-beta"] start =
  (Returned None,
   @mkWorld externals ("" ++ json beta ++ NL) [alpha; beta]
     ([] ++ [@EvNew externals 7 None;
             @EvInspectSecret externals 7 "id-beta" (inl beta)])%list).
Proof.
  apply (@inspect_prints_json externals healthy tt 7 "id-beta" [] start
           0 [alpha; beta] [alpha; beta] beta (json beta) eq_refl eq_refl eq_refl).
Defined.

(** [list] when no client can be built. *)
Lemma client_failure_stops_every_handler_run :
  cobra.RunE (listSecrets (backend (Some "no context") None)) tt 7 [] start =
  (Returned (Some "no context"),
   @mkWorld externals "" [alpha; beta]
     ([] ++ [@EvNew externals 7 (Some "no context")])%list).
Proof.
  apply (proj1 (proj2 (proj2
           (@client_failure_stops_every_handler externals
              (backend (Some "no context") None) 7 [] start "no context"
              [alpha; beta] eq_refl)))).
Defined.

(** [inspect missing]: the service does not find the secret. *)
Lemma only_success_prints_run :
  @stdout externals
    (snd (cobra.RunE (inspectSecret healthy) tt 7 ["missing"] start)) = "".
Proof.
  apply (proj1 (proj2 (@only_success_prints externals healthy 7 ["missing"] start))
           tt).
  cbn. discriminate.
Defined.

(** The handler of [delete], called with no argument at all. *)
Lemma handlers_panic_without_argument_run :
  cobra.RunE (deleteSecret healthy) (mkDeleteSecretOptions false) 7 [] start =
  (Panicked,
   @mkWorld externals "" [alpha; beta]
     ([] ++ [@EvNew externals 7 None])%list).
Proof.
  apply (proj2 (proj2
           (@handlers_panic_without_argument externals healthy 7 start
              0 [alpha; beta] eq_refl))).
Defined.

(** [secret update] selects nothing. *)
Lemma secret_answers_to_seven_words_run :
  cobra.findNext (cobra.commands (SecretCommand healthy)) "update" = None.
Proof.
  apply (@secret_answers_to_seven_words externals healthy "update").
  cbn. intuition discriminate.
Defined.

(** The table of [alpha] and [beta]: three lines, six tabs. *)
Lemma table_has_three_cells_per_line_run :
  count "010"%char (table [alpha; beta]) = 3
  /\ count "009"%char (table [alpha; beta]) = 6.
Proof.
  apply (@table_has_three_cells_per_line externals os_Stdout [alpha; beta]).
  apply Forall_cons; [| apply Forall_cons; [| apply Forall_nil]];
    intros c [-> | ->]; cbn; auto.
Defined.

(** [create alpha --username], the flag being the last word. *)
Lemma create_flags_need_values_run :
  exists err,
    cobra.execute (createSecret healthy) 7 [pflag.Long "username" None] ["alpha"] start =
    (Returned (Some err), start).
Proof.
  apply (proj2 (@create_flags_need_values externals healthy 7
                  [pflag.Long "username" None] ["alpha"] start)
           (pflag.Long "username" None) (or_introl eq_refl) eq_refl eq_refl).
Defined.

(** [delete beta --recover=maybe]. *)
Lemma delete_recover_needs_a_boolean_run :
  exists err,
    cobra.execute (deleteSecret healthy) 7 [pflag.Long "recover" (Some "maybe")] ["beta"]
      start = (Returned (Some err), start).
Proof.
  apply (proj2 (@delete_recover_needs_a_boolean externals healthy 7
                  [pflag.Long "recover" (Some "maybe")] ["beta"] start)
           "maybe" (or_introl eq_refl) eq_refl).
Defined.

(** [create alpha -u ann -d hi] and its long spelling. *)
Lemma create_shorthands_are_the_long_names_run :
  cobra.execute (createSecret healthy) 7
    [pflag.Long "username" (Some "ann"); pflag.Long "description" (Some "hi")]
    ["alpha"] start =
  cobra.execute (createSecret healthy) 7
    [pflag.Short "u" (Some "ann"); pflag.Short "d" (Some "hi")] ["alpha"] start.
Proof.
  apply (@create_shorthands_are_the_long_names externals healthy 7
           [pflag.Short "u" (Some "ann"); pflag.Short "d" (Some "hi")] ["alpha"] start
           (mkCreateSecretOptions "" "ann" "" "hi") eq_refl).
Defined.

(** [create alpha -u ann --password x -p pw] and
    [create alpha --password pw --username ann]. *)
Lemma create_flags_count_by_last_value_run :
  cobra.execute (createSecret healthy) 7
    [pflag.Short "u" (Some "ann"); pflag.Long "password" (Some "x");
     pflag.Short "p" (Some "pw")] ["alpha"] start =
  cobra.execute (createSecret healthy) 7
    [pflag.Long "password" (Some "pw"); pflag.Long "username" (Some "ann")]
    ["alpha"] start.
Proof.
  apply (@create_flags_count_by_last_value externals healthy 7
           [pflag.Short "u" (Some "ann"); pflag.Long "password" (Some "x");
            pflag.Short "p" (Some "pw")]
           [pflag.Long "password" (Some "pw"); pflag.Long "username" (Some "ann")]
           ["alpha"] start
           (mkCreateSecretOptions "" "ann" "pw" "") (mkCreateSecretOptions "" "ann" "pw" "")
           eq_refl eq_refl eq_refl eq_refl eq_refl).
Defined.

End MoreRuns.
